(** * jira-confluence-integration: artifact identity, eligibility and promotion

    A shallow embedding of [atlasian.py]: the file-name parser
    [parse_testfile_name], the label catalogue [get_current_labels], the
    predecessor resolver, the eligibility decision and the promotion
    protocol of class [Confluence].

    Python strings are modelled as [string] (characters are code points
    below 256); Python exceptions as the [Raise] case of [result]; the
    HTTP collaborators as a [Server] record of canned responses and a trace
    of the requests that were issued. *)

From Stdlib Require Import Strings.String Strings.Ascii.
From Stdlib Require Import Lists.List.
From Stdlib Require Import Arith.Arith Arith.PeanoNat.
From Stdlib Require Import Bool.Bool.
From Stdlib Require Import micromega.Lia.
Import ListNotations.

Local Open Scope string_scope.
Local Open Scope list_scope.
Local Open Scope nat_scope.
#[local] Set Warnings "-abstract-large-number".

(* ================================================================= *)
(** ** Exceptions *)

Inductive exn : Type :=
| ValueError      (* datetime.strptime on a string that is not a date *)
| TypeError       (* subscripting None *)
| IndexError      (* [..][0] on an empty list *)
| AttributeError  (* None.get *)
| UserWarning.    (* raised by get_current_labels *)

Inductive result (A : Type) : Type :=
| Ret (a : A)
| Raise (e : exn).
Arguments Ret {A} a.
Arguments Raise {A} e.

Definition rbind {A B} (r : result A) (f : A -> result B) : result B :=
  match r with
  | Ret a => f a
  | Raise e => Raise e
  end.

Notation "x <- c ;; k" := (rbind c (fun x => k))
  (at level 61, c at next level, right associativity).

(* ================================================================= *)
(** ** Characters and strings *)

Module Str.

Definition code (c : ascii) : nat := nat_of_ascii c.

Definition between (lo hi : nat) (c : ascii) : bool :=
  (lo <=? code c) && (code c <=? hi).

(** [\d] *)
Definition is_digit : ascii -> bool := between 48 57.
Definition is_upper_az : ascii -> bool := between 65 90.
Definition is_lower_az : ascii -> bool := between 97 122.

(** [\s] of a str pattern: str.isspace on code points below 256. *)
Definition is_space (c : ascii) : bool :=
  between 9 13 c || between 28 32 c
  || (code c =? 133) || (code c =? 160).

Definition is_newline (c : ascii) : bool := code c =? 10.

(** str.lower / str.upper, one character.  [upper_char] is only ever
    applied to the module group, which holds ASCII letters. *)
Definition lower_char (c : ascii) : ascii :=
  if is_upper_az c then ascii_of_nat (code c + 32)
  else if between 192 222 c && negb (code c =? 215)
       then ascii_of_nat (code c + 32)
       else c.

Definition upper_char (c : ascii) : ascii :=
  if is_lower_az c then ascii_of_nat (code c - 32) else c.

Fixpoint map (f : ascii -> ascii) (s : string) : string :=
  match s with
  | EmptyString => EmptyString
  | String c s' => String (f c) (map f s')
  end.

Definition lower : string -> string := map lower_char.
Definition upper : string -> string := map upper_char.

(** [s.replace(a, b)] for single characters. *)
Definition replace (a b : ascii) : string -> string :=
  map (fun c => if Ascii.eqb c a then b else c).

Fixpoint starts_with (p s : string) : bool :=
  match p, s with
  | EmptyString, _ => true
  | String a p', String b s' => Ascii.eqb a b && starts_with p' s'
  | String _ _, EmptyString => false
  end.

(** [needle in hay] *)
Fixpoint contains (needle hay : string) : bool :=
  starts_with needle hay
  || match hay with
     | EmptyString => false
     | String _ hay' => contains needle hay'
     end.

(** [int(..)] on a run of digits. *)
Fixpoint int_acc (acc : nat) (s : string) : nat :=
  match s with
  | EmptyString => acc
  | String c s' => int_acc (10 * acc + (code c - 48)) s'
  end.
Definition int : string -> nat := int_acc 0.

End Str.

(* ================================================================= *)
(** ** A backtracking matcher for the [re] patterns of the source *)

Module Re.

Inductive regex : Type :=
| Eps
| Chr (p : ascii -> bool)        (* one character satisfying [p] *)
| Bol                            (* ^ *)
| Eol                            (* $ : at the end, or before a final newline *)
| Seq (r1 r2 : regex)
| Alt (r1 r2 : regex)            (* r1|r2, r1 tried first *)
| Star (r : regex)               (* greedy r* *)
| Group (n : nat) (r : regex).   (* capturing group number n *)

Definition Opt (r : regex) : regex := Alt r Eps.        (* r? *)
Definition Plus (r : regex) : regex := Seq r (Star r).  (* r+ *)

Fixpoint Times (n : nat) (r : regex) : regex :=         (* r{n} *)
  match n with
  | O => Eps
  | S n' => Seq r (Times n' r)
  end.

(** A literal character; [ic] is the IGNORECASE flag. *)
Definition lit_char (ic : bool) (a : ascii) : regex :=
  Chr (fun c => if ic
                then Ascii.eqb (Str.lower_char c) (Str.lower_char a)
                else Ascii.eqb c a).

Fixpoint lit (ic : bool) (s : string) : regex :=
  match s with
  | EmptyString => Eps
  | String a s' => Seq (lit_char ic a) (lit ic s')
  end.

Definition digit : regex := Chr Str.is_digit.             (* \d *)
Definition space : regex := Chr Str.is_space.             (* \s *)
Definition dot : regex := Chr (fun c => negb (Str.is_newline c)).  (* . *)
(** [[A-Z]]; under IGNORECASE it also takes a-z. *)
Definition upper_class (ic : bool) : regex :=
  Chr (fun c => Str.is_upper_az c || (ic && Str.is_lower_az c)).

Definition captures : Type := list (nat * string).

Fixpoint group (n : nat) (cs : captures) : option string :=
  match cs with
  | [] => None
  | (m, s) :: cs' => if m =? n then Some s else group n cs'
  end.

Definition at_eol (s : string) : bool :=
  match s with
  | EmptyString => true
  | String c EmptyString => Str.is_newline c
  | _ => false
  end.

Section Matcher.
(** The subject string; [pos] is an index into it and [s] the rest
    of it from [pos] on. *)
Variable text : string.

Definition cont : Type := nat -> string -> captures -> option captures.

Fixpoint run (r : regex) (pos : nat) (s : string) (cs : captures)
         (k : cont) {struct r} : option captures :=
  match r with
  | Eps => k pos s cs
  | Chr p =>
      match s with
      | String c s' => if p c then k (S pos) s' cs else None
      | EmptyString => None
      end
  | Bol => if pos =? 0 then k pos s cs else None
  | Eol => if at_eol s then k pos s cs else None
  | Seq r1 r2 =>
      run r1 pos s cs (fun pos' s' cs' => run r2 pos' s' cs' k)
  | Alt r1 r2 =>
      match run r1 pos s cs k with
      | Some c => Some c
      | None => run r2 pos s cs k
      end
  | Star r1 =>
      (fix loop (fuel : nat) (pos : nat) (s : string) (cs : captures)
         : option captures :=
         match fuel with
         | O => k pos s cs
         | S fuel' =>
             match run r1 pos s cs
                     (fun pos' s' cs' =>
                        if pos <? pos' then loop fuel' pos' s' cs'
                        else None) with
             | Some c => Some c
             | None => k pos s cs
             end
         end) (S (String.length s)) pos s cs
  | Group n r1 =>
      run r1 pos s cs
          (fun pos' s' cs' =>
             k pos' s' ((n, substring pos (pos' - pos) text) :: cs'))
  end.

(** [re.match]: anchored at position 0.  Group 0 is the whole match,
    so its length is [found.end()]. *)
Definition match_start (r : regex) : option captures :=
  run (Group 0 r) 0 text [] (fun _ _ cs' => Some cs').

(** [re.search]: the leftmost position at which the pattern matches. *)
Fixpoint search_from (r : regex) (pos : nat) (s : string)
  : option captures :=
  match run r pos s [] (fun _ _ cs' => Some cs') with
  | Some cs => Some cs
  | None =>
      match s with
      | EmptyString => None
      | String _ s' => search_from r (S pos) s'
      end
  end.
End Matcher.

Definition search (r : regex) (text : string) : option captures :=
  search_from text r 0 text.

End Re.

(* ================================================================= *)
(** ** datetime.strptime(_, "%Y-%m-%d") *)

Record datetime : Type := mkdate { year : nat; month : nat; day : nat }.

Module Datetime.
Import Re.

(** The regular expression that [_strptime] builds for "%Y-%m-%d":
    (?P<Y>\d\d\d\d)-(?P<m>1[0-2]|0[1-9]|[1-9])-
    (?P<d>3[0-1]|[1-2]\d|0[1-9]|[1-9]| [1-9]), compiled with IGNORECASE. *)
Definition chr_in (lo hi : nat) : regex := Chr (Str.between lo hi).

Definition format_regex : regex :=
  Seq (Group 1 (Times 4 digit))
 (Seq (lit true "-")
 (Seq (Group 2 (Alt (Seq (lit true "1") (chr_in 48 50))
               (Alt (Seq (lit true "0") (chr_in 49 57))
                    (chr_in 49 57))))
 (Seq (lit true "-")
      (Group 3 (Alt (Seq (lit true "3") (chr_in 48 49))
               (Alt (Seq (chr_in 49 50) digit)
               (Alt (Seq (lit true "0") (chr_in 49 57))
               (Alt (chr_in 49 57)
                    (Seq (lit true " ") (chr_in 49 57)))))))))).

Definition is_leap (y : nat) : bool :=
  ((y mod 4 =? 0) && negb (y mod 100 =? 0)) || (y mod 400 =? 0).

Definition days_in_month (y m : nat) : nat :=
  match m with
  | 2 => if is_leap y then 29 else 28
  | 4 | 6 | 9 | 11 => 30
  | _ => 31
  end.

(** The range checks of the [datetime] constructor. *)
Definition valid (y m d : nat) : bool :=
  (1 <=? y) && (y <=? 9999) && (1 <=? m) && (m <=? 12)
  && (1 <=? d) && (d <=? days_in_month y m).

Definition strptime (data_string : string) : result datetime :=
  match match_start data_string format_regex with
  | None => Raise ValueError           (* does not match format *)
  | Some found =>
      match group 0 found, group 1 found, group 2 found, group 3 found with
      | Some whole, Some Y, Some m, Some d =>
          if negb (String.length data_string =? String.length whole)
          then Raise ValueError        (* unconverted data remains *)
          else
            let y := Str.int Y in
            let mo := Str.int m in
            let dd := Str.int d in
            if valid y mo dd then Ret (mkdate y mo dd)
            else Raise ValueError      (* day is out of range for month *)
      | _, _, _, _ => Raise ValueError
      end
  end.

(** [a > b] on datetimes (the time of day is always midnight here). *)
Definition gt (a b : datetime) : bool :=
  (year b <? year a)
  || ((year b =? year a)
      && ((month b <? month a)
          || ((month b =? month a) && (day b <? day a)))).

End Datetime.

(* ================================================================= *)
(** ** parse_testfile_name *)

Record parsed : Type := mkparsed {
  star : option string;      (* search.group(1) *)
  module : string;           (* search.group(2) *)
  full_release : string;     (* search.group(3) *)
  release : string;          (* search.group(4) *)
  date : datetime;           (* strptime(search.group(5), "%Y-%m-%d") *)
  version : string           (* search.group(6) *)
}.

Module Pattern.
Import Re.

(** Every pattern below is compiled with re.IGNORECASE. *)
Definition ic : bool := true.

(** "(Star_\d+)?_?" *)
Definition pattern_star : regex :=
  Seq (Opt (Group 1 (Seq (lit ic "Star_") (Plus digit))))
      (Opt (lit ic "_")).

(** "(rsu|hu|codd)" *)
Definition pattern_module : regex :=
  Group 2 (Alt (lit ic "rsu") (Alt (lit ic "hu") (lit ic "codd"))).

(** "([A-Z]\d+\.\d+)" *)
Definition pattern_release : regex :=
  Group 4 (Seq (upper_class ic)
          (Seq (Plus digit) (Seq (lit ic ".") (Plus digit)))).

(** "(\d{4}-\d{2}-\d{2})" *)
Definition pattern_date : regex :=
  Group 5 (Seq (Times 4 digit)
          (Seq (lit ic "-")
          (Seq (Times 2 digit)
          (Seq (lit ic "-") (Times 2 digit))))).

(** "(v\d+\.\d+\.\d+\.?\d?)" *)
Definition pattern_version : regex :=
  Group 6 (Seq (lit ic "v")
          (Seq (Plus digit)
          (Seq (lit ic ".")
          (Seq (Plus digit)
          (Seq (lit ic ".")
          (Seq (Plus digit)
          (Seq (Opt (lit ic ".")) (Opt digit)))))))).

(** "({pattern_release}_{pattern_date}_{pattern_version})" *)
Definition pattern_full_release : regex :=
  Group 3 (Seq pattern_release
          (Seq (lit ic "_")
          (Seq pattern_date
          (Seq (lit ic "_") pattern_version)))).

(** "^NTG7_Module_Test_" + pattern_star + "{pattern_module}_"
    + pattern_full_release + ".xlsx$"; the dot of ".xlsx" is not
    escaped in the source, so it stands for any character. *)
Definition pattern : regex :=
  Seq Bol
 (Seq (lit ic "NTG7_Module_Test_")
 (Seq pattern_star
 (Seq pattern_module
 (Seq (lit ic "_")
 (Seq pattern_full_release
 (Seq dot
 (Seq (lit ic "xlsx") Eol))))))).

End Pattern.

Definition parse_testfile_name (file_name : string) : result (option parsed) :=
  match Re.search Pattern.pattern file_name with
  | None => Ret None
  | Some search =>
      match Re.group 2 search, Re.group 3 search, Re.group 4 search,
            Re.group 5 search, Re.group 6 search with
      | Some g2, Some g3, Some g4, Some g5, Some g6 =>
          d <- Datetime.strptime g5 ;;
          Ret (Some (mkparsed (Re.group 1 search) g2 g3 g4 d g6))
      | _, _, _, _, _ => Ret None
      end
  end.

(* ================================================================= *)
(** ** class Confluence: the cached session state *)

(** An attachment as the page store returns it: [attachment.get("title")],
    [attachment.get("id")] and the names under
    [metadata.labels.results]. *)
Record Attachment : Type := mkattachment {
  title : string;
  id : string;
  labels : list string
}.

(** The instance attributes set by [Confluence.__init__]. *)
Record Confluence : Type := mkconfluence {
  current_labels : list string;
  attachments : list Attachment;
  attachment_titles : list string
}.

(** The page body as BeautifulSoup presents it to [find_all('p', ...)]:
    the [.string] of every <p> element in document order ([None] when
    the element has no single string child). *)
Definition page : Type := list (option string).

Module Labels.
Import Re.

(** re.compile(".*\s\(current\):$") *)
Definition block_pattern : regex :=
  Seq (Star dot) (Seq space (Seq (lit false "(current):") Eol)).

(** The second pattern of get_current_labels: ^, then group 1 = any
    run of characters, then the literal " (current)" with a plain
    space in front, then any run of characters, then $. *)
Definition label_pattern : regex :=
  Seq Bol
 (Seq (Group 1 (Star dot))
 (Seq (lit false " (current)")
 (Seq (Star dot) Eol))).

(** find_all('p', string=block_pattern) keeps the elements whose
    [.string] is searched successfully. *)
Definition matches_block (s : option string) : bool :=
  match s with
  | Some v => match search block_pattern v with Some _ => true | None => false end
  | None => false
  end.

Fixpoint tag_strings (body : page) : list string :=
  match body with
  | [] => []
  | Some v :: rest =>
      if matches_block (Some v) then v :: tag_strings rest
      else tag_strings rest
  | None :: rest => tag_strings rest
  end.

(** re.search(pattern, value)[1].lower().replace("-", "_").replace(" ", "_") *)
Definition label_of (value : string) : result string :=
  match search label_pattern value with
  | None => Raise TypeError
  | Some m =>
      match group 1 m with
      | Some g => Ret (Str.replace " " "_" (Str.replace "-" "_" (Str.lower g)))
      | None => Raise AttributeError
      end
  end.

Fixpoint comprehension (values : list string) : result (list string) :=
  match values with
  | [] => Ret []
  | v :: rest =>
      l <- label_of v ;;
      ls <- comprehension rest ;;
      Ret (l :: ls)
  end.
End Labels.

Definition get_current_labels (body : page) : result (list string) :=
  labels <- Labels.comprehension (Labels.tag_strings body) ;;
  match labels with
  | [] => Raise UserWarning
  | _ :: _ => Ret labels
  end.

(** [Confluence.__init__] against a page body and the attachments the
    store lists for the page. *)
Definition init (body : page) (stored : list Attachment) : result Confluence :=
  labels <- get_current_labels body ;;
  Ret (mkconfluence labels stored (map title stored)).

(* ================================================================= *)
(** ** Read-only methods of Confluence *)

Definition mem (x : string) (l : list string) : bool :=
  existsb (String.eqb x) l.

Definition parse_attachment_labels (attachment : Attachment) : list string :=
  labels attachment.

(** set(labels).issubset(parse_attachment_labels(attachment)) *)
Definition search_attachments_by_label (self : Confluence)
           (wanted : list string) : list Attachment :=
  filter (fun attachment =>
            forallb (fun l => mem l (parse_attachment_labels attachment)) wanted)
         (attachments self).

Definition search_attachment_by_name (self : Confluence) (name : string)
  : option Attachment :=
  match filter (fun attachment => String.eqb name (title attachment))
               (attachments self) with
  | a :: _ => Some a
  | [] => None
  end.

Definition get_latest_labeled_attachments (self : Confluence) : list string :=
  map title
      (flat_map (fun label => search_attachments_by_label self [label; "latest"])
                (current_labels self)).

Definition file_exists (self : Confluence) (file_name : string) : bool :=
  mem file_name (attachment_titles self).

(** [parse_testfile_name(x)[key]]: subscripting None is a TypeError. *)
Definition parsed_of (file_name : string) : result parsed :=
  p <- parse_testfile_name file_name ;;
  match p with
  | Some d => Ret d
  | None => Raise TypeError
  end.

Definition date_is_newer (to_be_uploaded existing : string) : result bool :=
  to_be_uploaded_date <- parsed_of to_be_uploaded ;;
  existing_date <- parsed_of existing ;;
  Ret (Datetime.gt (date to_be_uploaded_date) (date existing_date)).

(** Truth value of a str-or-None. *)
Definition truthy (s : option string) : bool :=
  match s with
  | Some (String _ _) => true
  | _ => false
  end.

Definition search_prefix (parsed_file : parsed) : string :=
  let star_ := if truthy (star parsed_file)
               then match star parsed_file with
                    | Some s => (s ++ "_")%string
                    | None => EmptyString
                    end
               else EmptyString in
  let module_ := Str.upper (module parsed_file) in
  ("NTG7_Module_Test_" ++ star_ ++ module_)%string.

(** The for loop of get_attachment_predecessor: the variable
    predecessor_file is overwritten by every title that contains the
    prefix. *)
Definition predecessor_loop (prefix : string) (latest : list string) : string :=
  fold_left (fun predecessor_file latest_attachment =>
               if Str.contains prefix latest_attachment
               then latest_attachment else predecessor_file)
            latest EmptyString.

Definition get_attachment_predecessor (self : Confluence) (file_name : string)
  : result string :=
  parsed_file <- parsed_of file_name ;;
  Ret (predecessor_loop (search_prefix parsed_file)
                        (get_latest_labeled_attachments self)).

(** The verdict: the line that is printed and the boolean returned. *)
Definition verdict : Type := (string * bool)%type.

Definition is_empty (s : string) : bool :=
  match s with EmptyString => true | _ => false end.

Definition file_eligible_for_upload (self : Confluence) (file_name : string)
  : result verdict :=
  p <- parse_testfile_name file_name ;;
  match p with
  | None => Ret ("File name doesn't match the pattern", false)
  | Some _ =>
      if file_exists self file_name then Ret ("File exists", false)
      else
        predecessor_file <- get_attachment_predecessor self file_name ;;
        if is_empty predecessor_file then Ret ("No predecessor", true)
        else
          newer <- date_is_newer file_name predecessor_file ;;
          if newer then Ret ("File is newer", true)
          else Ret ("Uploaded file is newer", false)
  end.

(** The reasons of the specification, as the lines the code prints. *)
Definition NAME_MISMATCH : string := "File name doesn't match the pattern".
Definition ALREADY_EXISTS : string := "File exists".
Definition NO_PREDECESSOR : string := "No predecessor".
Definition NEWER_THAN_PREDECESSOR : string := "File is newer".
Definition PREDECESSOR_NEWER : string := "Uploaded file is newer".

Definition accept (reason : string) : verdict := (reason, true).
Definition reject (reason : string) : verdict := (reason, false).

(* ================================================================= *)
(** ** Requests: the server, the trace and the promotion monad *)

(** What the page store answers during one promotion: the value of
    [response.json().get("results")[0].get("id")] for the upload (or the
    exception that expression raises), and the status code of the n-th
    POST to the label endpoint. *)
Record Server : Type := mkserver {
  upload : result (option string);
  label_status : nat -> nat
}.

(** The requests of the Confluence methods and the lines they print
    themselves; the diagnostics that class Request prints for a response
    other than 200 or 204 are left out. *)
Inductive event : Type :=
| Print (line : string)
| Upload (file_name : string)
| Label (attachment_id : string) (label_list : list string) (status_code : nat)
| Sleep (seconds : nat)
| Unlabel (attachment_id : string) (label : string).

(** The object [self] and the requests issued so far, oldest first. *)
Record World : Type := mkworld {
  self_ : Confluence;
  trace : list event
}.

Inductive run (A : Type) : Type :=
| Returns (a : A)
| Raises (e : exn)
| Spins.                      (* the while loop has not finished yet *)
Arguments Returns {A} a.
Arguments Raises {A} e.
Arguments Spins {A}.

Definition M (A : Type) : Type := World -> run A * World.

Definition ret {A} (a : A) : M A := fun w => (Returns a, w).

Definition bind {A B} (m : M A) (f : A -> M B) : M B :=
  fun w =>
    match m w with
    | (Returns a, w') => f a w'
    | (Raises e, w') => (Raises e, w')
    | (Spins, w') => (Spins, w')
    end.

Notation "x <~ c ;; k" := (bind c (fun x => k))
  (at level 61, c at next level, right associativity).
Notation "c ;;; k" := (bind c (fun _ => k))
  (at level 61, right associativity).

Definition lift {A} (r : result A) : M A :=
  fun w => match r with
           | Ret a => (Returns a, w)
           | Raise e => (Raises e, w)
           end.

Definition spin {A} : M A := fun w => (Spins, w).

Definition emit (e : event) : M unit :=
  fun w => (Returns tt, mkworld (self_ w) (trace w ++ [e])).

Definition get_self : M Confluence := fun w => (Returns (self_ w), w).

Definition is_label (e : event) : bool :=
  match e with Label _ _ _ => true | _ => false end.

Definition is_unlabel (e : event) : bool :=
  match e with Unlabel _ _ => true | _ => false end.

Definition labels_posted (tr : list event) : nat :=
  List.length (filter is_label tr).

(** self._post_request to content/{attachment_id}/label; the result is
    response.status_code. *)
Definition post_label (srv : Server) (attachment_id : string)
           (body : list string) : M nat :=
  fun w =>
    let status := label_status srv (labels_posted (trace w)) in
    (Returns status,
     mkworld (self_ w) (trace w ++ [Label attachment_id body status])).

Definition add_page_attachment (srv : Server) (file_name : string)
  : M (option string) :=
  emit (Print "Sending file...") ;;;
  emit (Upload file_name) ;;;
  lift (upload srv).

(** The while loop of add_label; [fuel] bounds the number of iterations
    that are followed. *)
Fixpoint retry_loop (fuel : nat) (srv : Server) (attachment_id : string)
         (body : list string) (retry : nat) (response : nat) : M nat :=
  if retry <? 3 then
    match fuel with
    | O => spin
    | S fuel' =>
        emit (Sleep 3) ;;;
        response' <~ post_label srv attachment_id body ;;
        retry_loop fuel' srv attachment_id body
                   (if response' =? 500 then retry + 1 else retry)
                   response'
    end
  else ret response.

Definition add_label (fuel : nat) (srv : Server) (attachment_id : string)
           (label_list : list string) : M bool :=
  response <~ post_label srv attachment_id label_list ;;
  response <~ (if response =? 500
               then retry_loop fuel srv attachment_id label_list 0 response
               else ret response) ;;
  if response =? 200 then ret true else ret false.

Definition remove_label (attachment_id : string) (label : string) : M unit :=
  emit (Unlabel attachment_id label).

(** [[label for label in self.current_labels if cond][0]] *)
Definition first_label (cond : string -> bool) (labels : list string)
  : result string :=
  match filter cond labels with
  | l :: _ => Ret l
  | [] => Raise IndexError
  end.

Definition has_star (label : string) : bool := Str.contains "star" label.

Definition main_label_of (self : Confluence) (parsed_file_name : parsed)
  : result string :=
  if truthy (star parsed_file_name)
  then first_label has_star (current_labels self)
  else first_label (fun label => negb (has_star label)) (current_labels self).

Definition send_and_label_attachment (fuel : nat) (srv : Server)
           (file_name : string) : M unit :=
  self <~ get_self ;;
  predecessor_name <~ lift (get_attachment_predecessor self file_name) ;;
  attachment_id <~ add_page_attachment srv file_name ;;
  match attachment_id with
  | Some (String c rest as attachment_id) =>
      parsed_file_name <~ lift (parsed_of file_name) ;;
      let module_label := Str.lower (module parsed_file_name) in
      main_label <~ lift (main_label_of self parsed_file_name) ;;
      label_was_added <~ add_label fuel srv attachment_id
                                   [main_label; module_label; "latest"] ;;
      if label_was_added && negb (is_empty predecessor_name) then
        emit (Print ("Previous file version was detected:"
                       ++ String "010" predecessor_name)) ;;;
        predecessor_id <~ lift (match search_attachment_by_name self predecessor_name with
                                | Some a => Ret (id a)
                                | None => Raise AttributeError
                                end) ;;
        remove_label predecessor_id "latest"
      else ret tt
  | _ =>
      emit (Print ("Failed to upload file " ++ file_name))
  end.

(** Running a method on a fresh trace. *)
Definition exec {A} (m : M A) (self : Confluence) : run A * World :=
  m (mkworld self []).

(* ================================================================= *)
(** ** Sample data *)

Module Sample.

Definition candidate : string :=
  "NTG7_Module_Test_RSU_E444.303_2023-03-29_v700.208.1.xlsx".
Definition older : string :=
  "NTG7_Module_Test_RSU_E444.300_2023-02-01_v700.200.0.xlsx".
Definition same_day : string :=
  "NTG7_Module_Test_RSU_E444.303_2023-03-29_v700.208.0.xlsx".
Definition early : string :=
  "NTG7_Module_Test_RSU_E444.290_2023-01-01_v700.190.0.xlsx".
Definition star_candidate : string :=
  "NTG7_Module_Test_Star_2_codd_E444.303_2023-03-29_v700.208.1.xlsx".
Definition february_30 : string :=
  "NTG7_Module_Test_RSU_E444.303_2023-02-30_v700.208.1.xlsx".
Definition random_report : string := "random_report.xlsx".

Definition tab : string := String "009" EmptyString.

Definition body_ok : page :=
  [Some "Release notes"; None; Some "E444 (current):";
   Some "Star2 FUP4 (current):"].
Definition body_tab : page :=
  [Some "E444 (current):"; Some ("Star2" ++ tab ++ "(current):")%string].
Definition body_none : page := [Some "Release notes"; None].

Definition catalog : list string := ["e444"; "star2_fup4"].

Definition empty_page : Confluence := mkconfluence catalog [] [].

Definition older_att : Attachment :=
  mkattachment older "att7" ["e444"; "rsu"; "latest"].
Definition with_older : Confluence :=
  mkconfluence catalog [older_att] [older].

Definition same_day_att : Attachment :=
  mkattachment same_day "att8" ["e444"; "rsu"; "latest"].
Definition with_same_day : Confluence :=
  mkconfluence catalog [same_day_att] [same_day].

(** An RSU report that carries the Star release-line label. *)
Definition cross_att : Attachment :=
  mkattachment older "att9" ["star2_fup4"; "rsu"; "latest"].
Definition cross_labelled : Confluence :=
  mkconfluence catalog [cross_att] [older].

Definition only_star : Confluence :=
  mkconfluence ["star2_fup4"] [] [].

Definition always (code : nat) : nat -> nat := fun _ => code.
(** One server-side failure, after which every write succeeds. *)
Definition recovering : nat -> nat := fun n => if n =? 0 then 500 else 200.

Definition healthy : Server := mkserver (Ret (Some "att10")) (always 200).
Definition failing : Server := mkserver (Ret (Some "att10")) (always 500).
Definition hiccup : Server := mkserver (Ret (Some "att10")) recovering.
Definition no_id : Server := mkserver (Ret None) (always 200).

End Sample.

(* ================================================================= *)
(** ** Vocabulary of the statements *)

(** [a] is strictly later than [b] in the calendar. *)
Definition later (a b : datetime) : Prop :=
  year b < year a
  \/ (year b = year a
      /\ (month b < month a \/ (month b = month a /\ day b < day a))).

(** The attachment carries the release-line label [l] and the sentinel. *)
Definition carries (l : string) (a : Attachment) : Prop :=
  In l (labels a) /\ In "latest" (labels a).

(** Predecessor resolution restricted to one selected release-line
    label, as the specification words it: whatever is resolved carries
    the label that the variant selects. *)
Definition resolves_within_selected (self : Confluence) (file_name : string)
  : Prop :=
  forall d sel p,
    parsed_of file_name = Ret d ->
    main_label_of self d = Ret sel ->
    get_attachment_predecessor self file_name = Ret p ->
    p <> EmptyString ->
    exists a, In a (attachments self) /\ title a = p /\ carries sel a.

(** The status code of the last label write of a trace. *)
Definition last_label_status (tr : list event) : option nat :=
  match last (filter is_label tr) (Sleep 0) with
  | Label _ _ status => Some status
  | _ => None
  end.

Definition demoted (tr : list event) : bool := existsb is_unlabel tr.

(** The catalogue holds a label for the file's variant: one with "star"
    in it when the file has a variant, one without otherwise. *)
Definition label_available (self : Confluence) (d : parsed) : Prop :=
  exists l, In l (current_labels self) /\ has_star l = truthy (star d).

(** The upload returned no usable id. *)
Definition no_id_returned (srv : Server) : Prop :=
  upload srv = Ret None \/ upload srv = Ret (Some EmptyString).

(** Re-submitting a file name in the session that has just promoted it. *)
Definition resubmit (fuel : nat) (srv : Server) (self : Confluence)
           (file_name : string) : result verdict :=
  let w := snd (exec (send_and_label_attachment fuel srv file_name) self) in
  file_eligible_for_upload (self_ w) file_name.

(** The trace of a promotion up to and including the upload request. *)
Definition sent (file_name : string) : list event :=
  [Print "Sending file..."; Upload file_name].

Definition detected (predecessor_name : string) : event :=
  Print ("Previous file version was detected:" ++ String "010" predecessor_name).

(** A predecessor was resolved for the file. *)
Definition predecessor_found (self : Confluence) (file_name : string) : Prop :=
  exists p, get_attachment_predecessor self file_name = Ret p
            /\ p <> EmptyString.

(* ================================================================= *)
(** ** What a pattern can consume *)

Module Shape.
Import Re.

(** The strings a pattern can consume; the anchors consume nothing. *)
Inductive lang : regex -> string -> Prop :=
| lang_eps : lang Eps EmptyString
| lang_chr p c : p c = true -> lang (Chr p) (String c EmptyString)
| lang_bol : lang Bol EmptyString
| lang_eol : lang Eol EmptyString
| lang_seq r1 r2 s1 s2 :
    lang r1 s1 -> lang r2 s2 -> lang (Seq r1 r2) (s1 ++ s2)
| lang_alt_l r1 r2 s : lang r1 s -> lang (Alt r1 r2) s
| lang_alt_r r1 r2 s : lang r2 s -> lang (Alt r1 r2) s
| lang_star_nil r : lang (Star r) EmptyString
| lang_star_cons r s1 s2 :
    lang r s1 -> lang (Star r) s2 -> lang (Star r) (s1 ++ s2)
| lang_group n r s : lang r s -> lang (Group n r) s.

(** [x] can be the text of group [n] somewhere inside [r]. *)
Fixpoint captured_by (r : regex) (n : nat) (x : string) : Prop :=
  match r with
  | Group m r1 => (m = n /\ lang r1 x) \/ captured_by r1 n x
  | Seq r1 r2 | Alt r1 r2 => captured_by r1 n x \/ captured_by r2 n x
  | Star r1 => captured_by r1 n x
  | _ => False
  end.

(** [s] is what is left of [text] from index [pos] on. *)
Definition suffix_at (text : string) (pos : nat) (s : string) : Prop :=
  exists pre, text = (pre ++ s)%string /\ String.length pre = pos.

(** Every character of the string satisfies [p]. *)
Fixpoint all_chars (p : ascii -> bool) (s : string) : bool :=
  match s with
  | EmptyString => true
  | String c s' => p c && all_chars p s'
  end.

(** What [run] hands to its continuation. *)
Definition handed (r : regex) (pos : nat) (s : string) (cs : captures)
           (k : cont) (res : captures) : Prop :=
  exists m s' cs',
    s = (m ++ s')%string
    /\ lang r m
    /\ k (pos + String.length m) s' cs' = Some res
    /\ (forall n x, In (n, x) cs' -> In (n, x) cs \/ captured_by r n x).

(** The loop that [run] enters for a starred pattern. *)
Section StarLoop.
Variable text : string.
Variable r1 : regex.
Variable k : cont.

Fixpoint star_loop (fuel : nat) (pos : nat) (s : string) (cs : captures)
  : option captures :=
  match fuel with
  | O => k pos s cs
  | S fuel' =>
      match run text r1 pos s cs
                (fun pos' s' cs' =>
                   if pos <? pos' then star_loop fuel' pos' s' cs'
                   else None) with
      | Some c => Some c
      | None => k pos s cs
      end
  end.
End StarLoop.

End Shape.

(* ================================================================= *)
(** ** Further vocabulary *)

(** A character that a normalised label can hold: no space, no hyphen,
    no capital A-Z. *)
Definition label_char_ok (c : ascii) : bool :=
  negb (Ascii.eqb c " ") && negb (Ascii.eqb c "-") && negb (Str.is_upper_az c).

(** The requests of one call of add_label whose responses were
    [statuses], in order: the first write, then a pause and a write per
    retry. *)
Definition attempts (attachment_id : string) (body : list string)
           (statuses : list nat) : list event :=
  match statuses with
  | [] => []
  | s0 :: rest =>
      Label attachment_id body s0
      :: flat_map (fun s => [Sleep 3; Label attachment_id body s]) rest
  end.

(** How many of the responses are a 500. *)
Definition failures (statuses : list nat) : nat :=
  List.length (filter (fun s => s =? 500) statuses).

(** The responses the server gives to [n] label writes from the
    [from]-th on. *)
Definition answers (srv : Server) (from n : nat) : list nat :=
  map (label_status srv) (seq from n).

Definition is_upload (e : event) : bool :=
  match e with Upload _ => true | _ => false end.

(** The requests of a trace, prints and pauses left out. *)
Definition requests (tr : list event) : list event :=
  filter (fun e => is_upload e || is_label e || is_unlabel e) tr.

(** A method only appends to the trace and leaves [self] alone. *)
Definition grows {A} (m : M A) : Prop :=
  forall w, exists evs, snd (m w) = mkworld (self_ w) (trace w ++ evs).

(* ================================================================= *)
(** ** get_attachments: the pagination *)

(** [c in chars] *)
Fixpoint char_in (c : ascii) (chars : string) : bool :=
  match chars with
  | EmptyString => false
  | String a rest => Ascii.eqb c a || char_in c rest
  end.

(** [s.lstrip(chars)]: the leading characters that occur in [chars]
    are dropped. *)
Fixpoint lstrip (chars : string) (s : string) : string :=
  match s with
  | EmptyString => EmptyString
  | String c s' => if char_in c chars then lstrip chars s' else s
  end.

(** One response of the attachment listing: [data.get("results")] and
    [data.get("_links").get("next")]. *)
Record Listing : Type := mklisting {
  results : list Attachment;
  next : option string
}.

(** The while loop of get_attachments; [get] answers a GET on an
    endpoint, [fuel] bounds the iterations that are followed. *)
Fixpoint pagination (fuel : nat) (get : string -> Listing)
         (attachments : list Attachment) (next_url : option string)
  : option (list Attachment) :=
  if truthy next_url then
    match fuel, next_url with
    | S fuel', Some u =>
        let data := get (lstrip "/rest/api/" u) in
        pagination fuel' get (attachments ++ results data) (next data)
    | _, _ => None
    end
  else Some attachments.

Definition get_attachments (fuel : nat) (get : string -> Listing)
           (page_id : string) : option (list Attachment) :=
  let data := get ("content/" ++ page_id ++ "/child/attachment")%string in
  pagination fuel get (results data) (next data).

(** The pages that following the next links from [next_url] yields. *)
Inductive chain (get : string -> Listing)
  : option string -> list (list Attachment) -> Prop :=
| chain_end next_url :
    truthy next_url = false -> chain get next_url []
| chain_next c u pages :
    chain get (next (get (lstrip "/rest/api/" (String c u)))) pages ->
    chain get (Some (String c u))
          (results (get (lstrip "/rest/api/" (String c u))) :: pages).

(* ================================================================= *)
(** ** main.py: the loop over the attachments of the issues *)

(** An attachment as Jira.parse_attachments shapes it. *)
Record JiraAttachment : Type := mkjira {
  file_name : string;
  download_url : string
}.

(** print("*" * 40) *)
Definition stars : string := "****************************************".

(** The body of the inner for loop.  [download url name] is what
    jira.download_attachment does: it returns or raises; [srv name] is
    what the page store answers during the promotion of that file. *)
Definition process (fuel : nat) (srv : string -> Server)
           (download : string -> string -> result unit)
           (attachment : JiraAttachment) : M unit :=
  emit (Print ("Processing " ++ file_name attachment)) ;;;
  self <~ get_self ;;
  v <~ lift (file_eligible_for_upload self (file_name attachment)) ;;
  emit (Print (fst v)) ;;;
  (if snd v then
     lift (download (download_url attachment) (file_name attachment)) ;;;
     send_and_label_attachment fuel (srv (file_name attachment))
                               (file_name attachment)
   else emit (Print "will not be uploaded")) ;;;
  emit (Print stars).

(** The two nested for loops run over the attachments of all issues in
    order. *)
Fixpoint main_loop (fuel : nat) (srv : string -> Server)
         (download : string -> string -> result unit)
         (candidates : list JiraAttachment) : M unit :=
  match candidates with
  | [] => ret tt
  | attachment :: rest =>
      process fuel srv download attachment ;;;
      main_loop fuel srv download rest
  end.

(* ================================================================= *)
(** ** Responses of a store that fails *)

(** The body of the upload response as far as add_page_attachment reads
    it: [response.json().get("results")], None when the key is absent,
    and the [.get("id")] of each result. *)
Record UploadBody : Type := mkbody {
  results_of : option (list (option string))
}.

(** [response.json().get("results")[0].get("id")] *)
Definition uploaded_id (body : UploadBody) : result (option string) :=
  match results_of body with
  | None => Raise TypeError
  | Some [] => Raise IndexError
  | Some (first :: _) => Ret first
  end.

(** The body of a refused upload, an error object without results, and
    a body whose results are an empty list. *)
Definition refused : UploadBody := mkbody None.
Definition nothing_stored : UploadBody := mkbody (Some []).

Definition refusing : Server :=
  mkserver (uploaded_id refused) (Sample.always 200).
Definition storing_nothing : Server :=
  mkserver (uploaded_id nothing_stored) (Sample.always 200).

(** The label endpoint answers 500, then accepts the write with 200,
    then answers 500 again and again. *)
Definition relapsing : nat -> nat := fun n => if n =? 1 then 200 else 500.
Definition relapse : Server := mkserver (Ret (Some "att10")) relapsing.

(* ================================================================= *)
(** ** Basic facts *)

Ltac quiet_branch :=
  cbn [fst snd trace];
  repeat split;
  try reflexivity; try discriminate;
  try (intros H; exfalso; revert H; cbn; intuition congruence).

Lemma mem_In (x : string) (l : list string) : mem x l = true <-> In x l.
Proof.
  unfold mem. rewrite existsb_exists. split.
  - intros [y [Hy E]]. apply String.eqb_eq in E. now subst.
  - intros H. exists x. split; [assumption | apply String.eqb_refl].
Qed.

Lemma mem_not_In (x : string) (l : list string) : ~ In x l -> mem x l = false.
Proof.
  intros H. destruct (mem x l) eqn:E; [|reflexivity].
  apply mem_In in E. contradiction.
Qed.

Lemma is_empty_false (s : string) : s <> EmptyString -> is_empty s = false.
Proof. destruct s; [congruence | reflexivity]. Qed.

Lemma gt_later (a b : datetime) : Datetime.gt a b = true <-> later a b.
Proof.
  unfold Datetime.gt, later.
  rewrite !orb_true_iff, !andb_true_iff, !orb_true_iff, !andb_true_iff.
  rewrite !Nat.ltb_lt, !Nat.eqb_eq. tauto.
Qed.

Lemma not_later_gt (a b : datetime) : ~ later a b -> Datetime.gt a b = false.
Proof.
  intros H. destruct (Datetime.gt a b) eqn:E; [|reflexivity].
  apply gt_later in E. contradiction.
Qed.

Lemma later_irrefl (a : datetime) : ~ later a a.
Proof. unfold later. lia. Qed.

Lemma parsed_of_parse (fn : string) (d : parsed) :
  parse_testfile_name fn = Ret (Some d) -> parsed_of fn = Ret d.
Proof. intros H. unfold parsed_of. now rewrite H. Qed.

(* ================================================================= *)
(** ** Artifact identifier *)

(** C4.  The claim is that parse never throws and answers null for an
    invalid calendar date.  On a name that matches the pattern with the
    date 2023-02-30, [datetime.strptime] raises ValueError and
    [parse_testfile_name] lets it escape. *)
Theorem parse_february_30_raises :
  parse_testfile_name Sample.february_30 = Raise ValueError.
Proof. vm_compute. reflexivity. Qed.

(* ================================================================= *)
(** ** Label catalogue *)

(** C9.  The claim is that label derivation fails only when no
    paragraph matches, and otherwise returns the normalised names.  On
    a page with the paragraphs "E444 (current):" and
    "Star2<TAB>(current):" both are kept by the first pattern (which
    asks for \s), but the second pattern (which asks for a plain space)
    does not match the latter, so subscripting the failed search raises
    TypeError although matches were found. *)
Theorem get_current_labels_tab_raises :
  List.length (Labels.tag_strings Sample.body_tab) = 2 /\
  Labels.label_of "E444 (current):" = Ret "e444" /\
  get_current_labels Sample.body_tab = Raise TypeError.
Proof. repeat split; vm_compute; reflexivity. Qed.

(* ================================================================= *)
(** ** Eligibility decision *)

(** C1.  The rules of [file_eligible_for_upload] are tried in order and
    the first applicable one decides: a name that parse answers null
    for is rejected with NAME_MISMATCH; a name that parses and is among
    the cached titles is rejected with ALREADY_EXISTS, whatever the
    predecessor; otherwise an empty predecessor accepts with
    NO_PREDECESSOR; otherwise the verdict is the outcome of the date
    comparison against the predecessor. *)
Theorem eligibility_rules_in_order (self : Confluence) (fn : string) :
  (parse_testfile_name fn = Ret None ->
   file_eligible_for_upload self fn = Ret (reject NAME_MISMATCH))
  /\
  (forall d, parse_testfile_name fn = Ret (Some d) ->
     (In fn (attachment_titles self) ->
      file_eligible_for_upload self fn = Ret (reject ALREADY_EXISTS))
     /\
     (~ In fn (attachment_titles self) ->
        (get_attachment_predecessor self fn = Ret EmptyString ->
         file_eligible_for_upload self fn = Ret (accept NO_PREDECESSOR))
        /\
        (forall p, get_attachment_predecessor self fn = Ret p ->
           p <> EmptyString ->
           file_eligible_for_upload self fn
           = (newer <- date_is_newer fn p ;;
              Ret (if newer then accept NEWER_THAN_PREDECESSOR
                   else reject PREDECESSOR_NEWER))))).
Proof.
  unfold file_eligible_for_upload. split.
  - intros H. rewrite H. reflexivity.
  - intros d H. rewrite H. cbn [rbind]. unfold file_exists. split.
    + intros Hin. apply mem_In in Hin. rewrite Hin. reflexivity.
    + intros Hnot. rewrite (mem_not_In _ _ Hnot). split.
      * intros Hp. rewrite Hp. reflexivity.
      * intros p Hp Hne. rewrite Hp. cbn [rbind].
        rewrite (is_empty_false _ Hne).
        destruct (date_is_newer fn p) as [[|]|e]; reflexivity.
Qed.

Lemma eligibility_rules_in_order_witness :
  file_eligible_for_upload Sample.empty_page Sample.random_report
  = Ret (reject NAME_MISMATCH)
  /\ file_eligible_for_upload Sample.with_older Sample.older
     = Ret (reject ALREADY_EXISTS)
  /\ file_eligible_for_upload Sample.empty_page Sample.candidate
     = Ret (accept NO_PREDECESSOR)
  /\ file_eligible_for_upload Sample.with_older Sample.candidate
     = Ret (accept NEWER_THAN_PREDECESSOR).
Proof.
  split; [|split; [|split]].
  - apply (proj1 (eligibility_rules_in_order Sample.empty_page
                    Sample.random_report)).
    vm_compute. reflexivity.
  - destruct (parse_testfile_name Sample.older) as [[d|]|e] eqn:E;
      try (vm_compute in E; discriminate).
    apply (proj1 (proj2 (eligibility_rules_in_order Sample.with_older
                           Sample.older) d E)).
    simpl. left. reflexivity.
  - destruct (parse_testfile_name Sample.candidate) as [[d|]|e] eqn:E;
      try (vm_compute in E; discriminate).
    apply (proj1 (proj2 (proj2 (eligibility_rules_in_order Sample.empty_page
                                  Sample.candidate) d E)
                        (fun H : In Sample.candidate [] => H))).
    vm_compute. reflexivity.
  - destruct (parse_testfile_name Sample.candidate) as [[d|]|e] eqn:E;
      try (vm_compute in E; discriminate).
    assert (Hnot : ~ In Sample.candidate (attachment_titles Sample.with_older)).
    { simpl. intros [H|[]]. vm_compute in H. discriminate. }
    rewrite (proj2 (proj2 (proj2 (eligibility_rules_in_order Sample.with_older
                                    Sample.candidate) d E) Hnot)
                   Sample.older).
    + vm_compute. reflexivity.
    + vm_compute. reflexivity.
    + vm_compute. discriminate.
Defined.

(** C3.  With a resolved predecessor the verdict depends on the two
    parsed dates only: a strictly later candidate is accepted with
    NEWER_THAN_PREDECESSOR, any other is rejected with
    PREDECESSOR_NEWER; in particular equal dates are rejected whatever
    the two build versions are. *)
Theorem date_decides_verdict
        (self : Confluence) (fn p : string) (d1 d2 : parsed) :
  parse_testfile_name fn = Ret (Some d1) ->
  ~ In fn (attachment_titles self) ->
  get_attachment_predecessor self fn = Ret p ->
  p <> EmptyString ->
  parse_testfile_name p = Ret (Some d2) ->
  (later (date d1) (date d2) ->
   file_eligible_for_upload self fn = Ret (accept NEWER_THAN_PREDECESSOR))
  /\
  (~ later (date d1) (date d2) ->
   file_eligible_for_upload self fn = Ret (reject PREDECESSOR_NEWER))
  /\
  (date d1 = date d2 ->
   file_eligible_for_upload self fn = Ret (reject PREDECESSOR_NEWER)).
Proof.
  intros H1 Hnot Hp Hne H2.
  assert (E : file_eligible_for_upload self fn
              = Ret (if Datetime.gt (date d1) (date d2)
                     then accept NEWER_THAN_PREDECESSOR
                     else reject PREDECESSOR_NEWER)).
  { unfold file_eligible_for_upload, file_exists.
    rewrite H1. cbn [rbind].
    rewrite (mem_not_In _ _ Hnot), Hp. cbn [rbind].
    rewrite (is_empty_false _ Hne).
    unfold date_is_newer.
    rewrite (parsed_of_parse _ _ H1), (parsed_of_parse _ _ H2).
    cbn [rbind]. destruct (Datetime.gt (date d1) (date d2)); reflexivity. }
  rewrite E. repeat split.
  - intros L. apply gt_later in L. now rewrite L.
  - intros L. now rewrite (not_later_gt _ _ L).
  - intros Heq. rewrite Heq.
    now rewrite (not_later_gt _ _ (later_irrefl (date d2))).
Qed.

Lemma date_decides_verdict_witness :
  file_eligible_for_upload Sample.with_older Sample.candidate
  = Ret (accept NEWER_THAN_PREDECESSOR)
  /\ file_eligible_for_upload Sample.with_same_day Sample.candidate
     = Ret (reject PREDECESSOR_NEWER).
Proof.
  destruct (parse_testfile_name Sample.candidate) as [[d1|]|e1] eqn:E1;
    try (vm_compute in E1; discriminate).
  destruct (parse_testfile_name Sample.older) as [[d2|]|e2] eqn:E2;
    try (vm_compute in E2; discriminate).
  destruct (parse_testfile_name Sample.same_day) as [[d3|]|e3] eqn:E3;
    try (vm_compute in E3; discriminate).
  split.
  - apply (proj1 (date_decides_verdict Sample.with_older Sample.candidate
                    Sample.older d1 d2 E1
                    ltac:(simpl; intros [H|[]]; vm_compute in H; discriminate)
                    ltac:(vm_compute; reflexivity)
                    ltac:(vm_compute; discriminate)
                    E2)).
    vm_compute in E1. vm_compute in E2.
    injection E1 as <-. injection E2 as <-.
    unfold later. simpl. lia.
  - apply (proj2 (proj2 (date_decides_verdict Sample.with_same_day
                    Sample.candidate Sample.same_day d1 d3 E1
                    ltac:(simpl; intros [H|[]]; vm_compute in H; discriminate)
                    ltac:(vm_compute; reflexivity)
                    ltac:(vm_compute; discriminate)
                    E3))).
    vm_compute in E1. vm_compute in E3.
    injection E1 as <-. injection E3 as <-. reflexivity.
Defined.

(* ================================================================= *)
(** ** Predecessor resolver *)

Lemma last_cons_default {A} (x : A) (l : list A) (d : A) :
  last (x :: l) d = last l x.
Proof.
  revert x d. induction l as [|y l IH]; intros x d; [reflexivity|].
  change (last (x :: y :: l) d) with (last (y :: l) d).
  rewrite (IH y d), (IH y x). reflexivity.
Qed.

Lemma last_In {A} (l : list A) (d : A) : l <> [] -> In (last l d) l.
Proof.
  induction l as [|x l IH]; [congruence|]. intros _.
  destruct l as [|y l]; [now left|].
  right. apply IH. discriminate.
Qed.

Lemma predecessor_loop_from (P : string -> bool) (l : list string) (acc : string) :
  fold_left (fun predecessor_file latest_attachment =>
               if P latest_attachment then latest_attachment
               else predecessor_file) l acc
  = last (filter P l) acc.
Proof.
  revert acc. induction l as [|x l IH]; intros acc; [reflexivity|].
  simpl. destruct (P x).
  - rewrite IH, last_cons_default. reflexivity.
  - apply IH.
Qed.

Lemma predecessor_loop_last (prefix : string) (l : list string) :
  predecessor_loop prefix l = last (filter (Str.contains prefix) l) EmptyString.
Proof. apply predecessor_loop_from. Qed.

Lemma pool_spec (self : Confluence) (t : string) :
  In t (get_latest_labeled_attachments self) <->
  exists a l, In a (attachments self) /\ In l (current_labels self)
              /\ carries l a /\ title a = t.
Proof.
  unfold get_latest_labeled_attachments, search_attachments_by_label,
    parse_attachment_labels, carries.
  rewrite in_map_iff. split.
  - intros [a [Ht Ha]]. apply in_flat_map in Ha as [l [Hl Ha]].
    apply filter_In in Ha as [Ha Hc]. simpl in Hc.
    rewrite andb_true_r in Hc. apply andb_true_iff in Hc as [Hc1 Hc2].
    exists a, l. apply mem_In in Hc1, Hc2. auto.
  - intros [a [l [Ha [Hl [[Hc1 Hc2] Ht]]]]].
    exists a. split; [assumption|].
    apply in_flat_map. exists l. split; [assumption|].
    apply filter_In. split; [assumption|]. simpl.
    apply mem_In in Hc1, Hc2. now rewrite Hc1, Hc2.
Qed.

Lemma search_prefix_not_in_empty (d : parsed) :
  Str.contains (search_prefix d) EmptyString = false.
Proof. reflexivity. Qed.

Lemma last_hits_empty (d : parsed) (pool : list string) :
  last (filter (Str.contains (search_prefix d)) pool) EmptyString = EmptyString
  <-> filter (Str.contains (search_prefix d)) pool = [].
Proof.
  split.
  - intros H.
    destruct (filter (Str.contains (search_prefix d)) pool) as [|x l] eqn:E;
      [reflexivity|].
    assert (Hin : In (last (x :: l) EmptyString) (x :: l))
      by (apply last_In; discriminate).
    rewrite H, <- E in Hin. apply filter_In in Hin as [_ Hc].
    rewrite search_prefix_not_in_empty in Hc. discriminate.
  - intros ->. reflexivity.
Qed.

(** C2 (as the code has it).  Predecessor resolution draws on the
    attachments that carry the sentinel [latest] together with any of
    the active release-line labels, not only the one the variant
    selects; among the titles of that pool that contain the search
    prefix (the fixed literal, the variant as written, the upper-cased
    module) the last one met is returned, and the empty string exactly
    when none contains it. *)
Theorem predecessor_is_last_of_pool
        (self : Confluence) (fn : string) (d : parsed) :
  parsed_of fn = Ret d ->
  let pool := get_latest_labeled_attachments self in
  let hits := filter (Str.contains (search_prefix d)) pool in
  (forall t, In t pool <->
             exists a l, In a (attachments self) /\ In l (current_labels self)
                         /\ carries l a /\ title a = t)
  /\ get_attachment_predecessor self fn = Ret (last hits EmptyString)
  /\ (last hits EmptyString = EmptyString <-> hits = []).
Proof.
  intros H pool hits. split; [|split].
  - intros t. apply pool_spec.
  - unfold get_attachment_predecessor. rewrite H. cbn [rbind].
    now rewrite predecessor_loop_last.
  - apply last_hits_empty.
Qed.

Lemma predecessor_is_last_of_pool_witness :
  get_attachment_predecessor Sample.with_older Sample.candidate
  = Ret Sample.older.
Proof.
  destruct (parsed_of Sample.candidate) as [d|e] eqn:E;
    [|vm_compute in E; discriminate].
  rewrite (proj1 (proj2 (predecessor_is_last_of_pool Sample.with_older
                           Sample.candidate d E))).
  vm_compute in E. injection E as <-. vm_compute. reflexivity.
Defined.

(** C2, as worded: every resolved predecessor would carry the label the
    variant selects.  An RSU report labelled with the Star release line
    and [latest] is resolved for a candidate without variant, although
    the selected label is "e444". *)
Lemma resolution_crosses_release_lines :
  ~ resolves_within_selected Sample.cross_labelled Sample.candidate.
Proof.
  intros H.
  destruct (parsed_of Sample.candidate) as [d|e] eqn:E;
    [|vm_compute in E; discriminate].
  destruct (H d "e444" Sample.older E) as [a [Ha [_ [Hc _]]]].
  - vm_compute in E. injection E as <-. vm_compute. reflexivity.
  - vm_compute. reflexivity.
  - vm_compute. discriminate.
  - simpl in Ha. destruct Ha as [<-|[]]. simpl in Hc.
    destruct Hc as [Hc|[Hc|[Hc|[]]]]; vm_compute in Hc; discriminate.
Qed.

(* ================================================================= *)
(** ** Promotion protocol: the label write *)

Lemma labels_posted_app (tr1 tr2 : list event) :
  labels_posted (tr1 ++ tr2) = labels_posted tr1 + labels_posted tr2.
Proof. unfold labels_posted. now rewrite filter_app, length_app. Qed.

Lemma retry_loop_step fuel srv aid body retry resp w :
  retry < 3 ->
  retry_loop (S fuel) srv aid body retry resp w
  = let st := label_status srv (labels_posted (trace w)) in
    retry_loop fuel srv aid body (if st =? 500 then retry + 1 else retry) st
               (mkworld (self_ w) (trace w ++ [Sleep 3; Label aid body st])).
Proof.
  intros H. apply Nat.ltb_lt in H. cbn [retry_loop]. rewrite H.
  unfold bind, emit, post_label. cbn [trace self_].
  rewrite labels_posted_app. cbn [labels_posted filter is_label List.length].
  rewrite Nat.add_0_r, <- app_assoc. reflexivity.
Qed.

Lemma retry_loop_done fuel srv aid body retry resp w :
  3 <= retry ->
  retry_loop fuel srv aid body retry resp w = (Returns resp, w).
Proof.
  intros H. apply Nat.ltb_ge in H.
  destruct fuel; cbn [retry_loop]; rewrite H; reflexivity.
Qed.

Lemma retry_loop_recovering fuel u aid body :
  forall resp w,
    1 <= labels_posted (trace w) ->
    exists w',
      retry_loop fuel (mkserver u Sample.recovering) aid body 0 resp w
      = (Spins, w')
      /\ labels_posted (trace w') = labels_posted (trace w) + fuel.
Proof.
  induction fuel as [|fuel IH]; intros resp w Hn.
  - exists w. split; [reflexivity | lia].
  - rewrite retry_loop_step by lia. cbn zeta. cbn [label_status].
    assert (E : Sample.recovering (labels_posted (trace w)) = 200).
    { unfold Sample.recovering.
      destruct (labels_posted (trace w)); [lia | reflexivity]. }
    rewrite E. change (200 =? 500) with false. cbn iota.
    destruct (IH 200 (mkworld (self_ w)
                        (trace w ++ [Sleep 3; Label aid body 200])))
      as [w' [Hrun Hcount]].
    + cbn [trace]. rewrite labels_posted_app. lia.
    + exists w'. split; [exact Hrun|].
      rewrite Hcount. cbn [trace]. rewrite labels_posted_app.
      cbn. lia.
Qed.

(** C5.  The claim is that the label write stops after at most four
    requests whatever the status codes are.  When the first write fails
    with 500 and every later one answers 200, the while loop of
    [add_label] never counts a retry: however many iterations are
    followed it is still running, and it has issued one request more
    than that number. *)
Theorem add_label_spins_after_recovery
        (fuel : nat) (u : result (option string)) (aid : string)
        (label_list : list string) (self : Confluence) :
  exists w,
    exec (add_label fuel (mkserver u Sample.recovering) aid label_list) self
    = (Spins, w)
    /\ labels_posted (trace w) = fuel + 1.
Proof.
  unfold exec, add_label, bind, post_label.
  cbn [trace self_ label_status labels_posted filter List.length app].
  change (Sample.recovering 0) with 500. change (500 =? 500) with true.
  cbn iota.
  destruct (retry_loop_recovering fuel u aid label_list 500
              (mkworld self [Label aid label_list 500]))
    as [w' [Hrun Hcount]].
  - cbn. lia.
  - rewrite Hrun. exists w'. split; [reflexivity|].
    rewrite Hcount. cbn. lia.
Qed.

Lemma demoted_app (tr1 tr2 : list event) :
  demoted (tr1 ++ tr2) = demoted tr1 || demoted tr2.
Proof. apply existsb_app. Qed.

Lemma last_app_nonempty {A} (l1 l2 : list A) (d : A) :
  l2 <> [] -> last (l1 ++ l2) d = last l2 d.
Proof.
  intros H. induction l1 as [|x l1 IH]; [reflexivity|].
  simpl. rewrite IH.
  destruct (l1 ++ l2) eqn:E; [|reflexivity].
  apply app_eq_nil in E as [_ E]. contradiction.
Qed.

Lemma last_label_status_app (tr1 tr2 : list event) (s : nat) :
  last_label_status tr2 = Some s -> last_label_status (tr1 ++ tr2) = Some s.
Proof.
  unfold last_label_status. intros H. rewrite filter_app.
  rewrite last_app_nonempty; [exact H|].
  intros E. rewrite E in H. discriminate.
Qed.

Lemma last_label_status_quiet (tr1 tr2 : list event) :
  labels_posted tr2 = 0 ->
  last_label_status (tr1 ++ tr2) = last_label_status tr1.
Proof.
  unfold last_label_status, labels_posted. intros H.
  rewrite filter_app. apply length_zero_iff_nil in H.
  now rewrite H, app_nil_r.
Qed.

(** What the while loop adds to the trace, and what it returns when it
    is left: the response it was entered with if no iteration ran, else
    the last response, which is then a 500. *)
Lemma retry_loop_spec fuel srv aid body :
  forall retry resp w,
  exists evs,
    snd (retry_loop fuel srv aid body retry resp w)
    = mkworld (self_ w) (trace w ++ evs)
    /\ demoted evs = false
    /\ match fst (retry_loop fuel srv aid body retry resp w) with
       | Returns r =>
           (evs = [] /\ r = resp /\ 3 <= retry)
           \/ (last_label_status evs = Some r /\ r = 500)
       | Raises _ => False
       | Spins => True
       end.
Proof.
  induction fuel as [|fuel IH]; intros retry resp w.
  - exists []. rewrite app_nil_r. destruct w as [s t].
    cbn [retry_loop]. destruct (retry <? 3) eqn:E.
    + repeat split.
    + apply Nat.ltb_ge in E. repeat split. left. auto.
  - destruct (Nat.lt_ge_cases retry 3) as [Hlt|Hge].
    + rewrite retry_loop_step by exact Hlt. cbn zeta.
      set (st := label_status srv (labels_posted (trace w))).
      set (w1 := mkworld (self_ w) (trace w ++ [Sleep 3; Label aid body st])).
      set (retry1 := if st =? 500 then retry + 1 else retry).
      destruct (IH retry1 st w1) as [evs [Hw [Hd Hr]]].
      exists ([Sleep 3; Label aid body st] ++ evs).
      split; [|split].
      * rewrite Hw. unfold w1. cbn [self_ trace].
        now rewrite <- app_assoc.
      * rewrite demoted_app, Hd. reflexivity.
      * destruct (fst (retry_loop fuel srv aid body retry1 st w1)) as [r| |];
          [|exact Hr|exact I].
        right. destruct Hr as [[-> [-> H3]]|[Hl ->]].
        -- unfold retry1 in H3. destruct (st =? 500) eqn:E; [|lia].
           apply Nat.eqb_eq in E. rewrite E. split; reflexivity.
        -- split; [|reflexivity]. now apply last_label_status_app.
    + rewrite retry_loop_done by exact Hge.
      exists []. rewrite app_nil_r. destruct w as [s t].
      repeat split. left. auto.
Qed.

(** [add_label] never raises and never unlabels; when it returns, its
    answer says whether the last label write was answered with 200. *)
Lemma add_label_spec fuel srv aid body w :
  exists evs,
    snd (add_label fuel srv aid body w) = mkworld (self_ w) (trace w ++ evs)
    /\ demoted evs = false
    /\ 1 <= labels_posted evs
    /\ match fst (add_label fuel srv aid body w) with
       | Returns b =>
           exists s, last_label_status evs = Some s /\ b = (s =? 200)
                     /\ (label_status srv (labels_posted (trace w)) = 500
                         -> b = false)
       | Raises _ => False
       | Spins => True
       end.
Proof.
  unfold add_label, bind, post_label.
  set (s0 := label_status srv (labels_posted (trace w))).
  set (w1 := mkworld (self_ w) (trace w ++ [Label aid body s0])).
  destruct (s0 =? 500) eqn:E500.
  - destruct (retry_loop_spec fuel srv aid body 0 s0 w1) as [evs [Hw [Hd Hr]]].
    destruct (retry_loop fuel srv aid body 0 s0 w1) as [[r| |] w2] eqn:Hrun;
      cbn [fst snd] in *.
    + exists ([Label aid body s0] ++ evs).
      destruct Hr as [[_ [_ H3]]|[Hl ->]]; [lia|].
      change (500 =? 200) with false. cbn [ret fst snd].
      repeat split.
      * rewrite Hw. unfold w1. cbn [self_ trace]. now rewrite <- app_assoc.
      * rewrite demoted_app, Hd. reflexivity.
      * rewrite labels_posted_app. cbn. lia.
      * exists 500. repeat split. now apply last_label_status_app.
    + contradiction.
    + exists ([Label aid body s0] ++ evs). cbn [fst snd]. repeat split.
      * rewrite Hw. unfold w1. cbn [self_ trace]. now rewrite <- app_assoc.
      * rewrite demoted_app, Hd. reflexivity.
      * rewrite labels_posted_app. cbn. lia.
  - exists [Label aid body s0]. unfold ret. cbn beta iota.
    destruct (s0 =? 200) eqn:E200; cbn [fst snd]; repeat split;
      try (cbn; lia);
      try (exists s0; repeat split; [now rewrite E200|];
           intros H; rewrite H in E500; discriminate).
    exists s0. repeat split. now rewrite E200.
Qed.

(** With four failures in a row the loop is left after the third
    iteration. *)
Lemma retry_loop_all_fail srv aid body fuel :
  forall retry resp w,
    (forall n, n < 4 -> label_status srv n = 500) ->
    labels_posted (trace w) = retry + 1 ->
    3 - retry <= fuel ->
    fst (retry_loop fuel srv aid body retry resp w) <> Spins.
Proof.
  induction fuel as [|fuel IH]; intros retry resp w Hall Hn Hfuel.
  - rewrite retry_loop_done by lia. discriminate.
  - destruct (Nat.lt_ge_cases retry 3) as [Hlt|Hge].
    + rewrite retry_loop_step by exact Hlt. cbn zeta.
      rewrite Hn, Hall by lia. change (500 =? 500) with true. cbn iota.
      apply IH; [exact Hall | | lia].
      cbn [trace]. rewrite labels_posted_app, Hn. cbn. lia.
    + rewrite retry_loop_done by exact Hge. discriminate.
Qed.

Lemma add_label_all_fail fuel srv aid body w :
  (forall n, n < 4 -> label_status srv n = 500) ->
  labels_posted (trace w) = 0 ->
  3 <= fuel ->
  fst (add_label fuel srv aid body w) <> Spins.
Proof.
  intros Hall H0 Hfuel. unfold add_label, bind, post_label.
  rewrite H0, Hall by lia. change (500 =? 500) with true. cbn iota.
  set (w1 := mkworld (self_ w) (trace w ++ [Label aid body 500])).
  pose proof (retry_loop_all_fail srv aid body fuel 0 500 w1 Hall) as H.
  destruct (retry_loop fuel srv aid body 0 500 w1) as [[r| |] w2];
    cbn [fst] in *.
  - destruct (r =? 200); discriminate.
  - discriminate.
  - exfalso. apply H; [|lia|reflexivity]. unfold w1. cbn [trace].
    rewrite labels_posted_app, H0. reflexivity.
Qed.

(* ================================================================= *)
(** ** Promotion protocol: send_and_label_attachment *)

(** The body of [send_and_label_attachment], one branch per way it can
    go. *)
Lemma send_and_label_cases fuel srv self fn :
  exec (send_and_label_attachment fuel srv fn) self
  = match get_attachment_predecessor self fn with
    | Raise e => (Raises e, mkworld self [])
    | Ret predecessor_name =>
        match upload srv with
        | Raise e => (Raises e, mkworld self (sent fn))
        | Ret (Some (String c rest)) =>
            match parsed_of fn with
            | Raise e => (Raises e, mkworld self (sent fn))
            | Ret d =>
                match main_label_of self d with
                | Raise e => (Raises e, mkworld self (sent fn))
                | Ret main_label =>
                    match add_label fuel srv (String c rest)
                            [main_label; Str.lower (module d); "latest"]
                            (mkworld self (sent fn)) with
                    | (Returns b, w) =>
                        if b && negb (is_empty predecessor_name) then
                          match search_attachment_by_name self predecessor_name with
                          | Some a =>
                              (Returns tt,
                               mkworld (self_ w)
                                 (trace w ++ [detected predecessor_name;
                                              Unlabel (id a) "latest"]))
                          | None =>
                              (Raises AttributeError,
                               mkworld (self_ w)
                                 (trace w ++ [detected predecessor_name]))
                          end
                        else (Returns tt, w)
                    | (Raises e, w) => (Raises e, w)
                    | (Spins, w) => (Spins, w)
                    end
                end
            end
        | Ret _ =>
            (Returns tt,
             mkworld self (sent fn ++ [Print ("Failed to upload file " ++ fn)]))
        end
    end.
Proof.
  unfold exec, send_and_label_attachment, add_page_attachment.
  unfold bind at 1. unfold get_self at 1. cbn [self_].
  unfold bind at 1. unfold lift at 1.
  destruct (get_attachment_predecessor self fn) as [p|e]; [|reflexivity].
  unfold bind at 1. unfold bind at 1. unfold emit at 1.
  unfold bind at 1. unfold emit at 1. unfold lift at 1.
  cbn [self_ trace app].
  destruct (upload srv) as [[[|c rest]|]|e]; try reflexivity.
  unfold bind at 1. unfold lift at 1.
  destruct (parsed_of fn) as [d|e]; [|reflexivity].
  unfold bind at 1. unfold lift at 1.
  destruct (main_label_of self d) as [main_label|e]; [|reflexivity].
  unfold bind at 1. fold (sent fn).
  destruct (add_label fuel srv (String c rest)
              [main_label; Str.lower (module d); "latest"]
              (mkworld self (sent fn))) as [[b| |] w]; try reflexivity.
  destruct (b && negb (is_empty p)); [|reflexivity].
  unfold bind, emit, lift, remove_label. cbn [self_ trace].
  destruct (search_attachment_by_name self p) as [a|].
  - unfold emit. cbn [self_ trace]. rewrite <- app_assoc. reflexivity.
  - reflexivity.
Qed.

Lemma resolved_has_attachment (self : Confluence) (fn p : string) :
  get_attachment_predecessor self fn = Ret p ->
  p <> EmptyString ->
  exists a, search_attachment_by_name self p = Some a /\ title a = p.
Proof.
  unfold get_attachment_predecessor. intros H Hne.
  destruct (parsed_of fn) as [d|e]; [|discriminate].
  cbn [rbind] in H. injection H as H.
  rewrite predecessor_loop_last in H.
  assert (Hin : In p (get_latest_labeled_attachments self)).
  { destruct (filter (Str.contains (search_prefix d))
                     (get_latest_labeled_attachments self)) as [|x l] eqn:E.
    - simpl in H. congruence.
    - assert (Hl : In (last (x :: l) EmptyString) (x :: l))
        by (apply last_In; discriminate).
      rewrite H, <- E in Hl. now apply filter_In in Hl as [Hl _]. }
  apply pool_spec in Hin as [a [l [Ha [_ [_ Ht]]]]].
  unfold search_attachment_by_name.
  destruct (filter (fun attachment => String.eqb p (title attachment))
                   (attachments self)) as [|b rest] eqn:E.
  - assert (Hf : In a (filter (fun attachment => String.eqb p (title attachment))
                              (attachments self))).
    { apply filter_In. split; [assumption|].
      rewrite Ht. apply String.eqb_refl. }
    rewrite E in Hf. contradiction.
  - exists b. split; [reflexivity|].
    assert (Hb : In b (filter (fun attachment => String.eqb p (title attachment))
                              (attachments self)))
      by (rewrite E; now left).
    apply filter_In in Hb as [_ Hb]. apply String.eqb_eq in Hb. now symmetry.
Qed.

(** C6.  The claim is that [latest] is removed from the predecessor
    whenever the label write ultimately succeeded and a predecessor was
    resolved.  With the answers 500, 200, 500, 500, 500 and a resolved
    predecessor, the second write is accepted, yet the loop of
    [add_label] goes on until three more answers of 500, the method
    returns with the result False and [latest] stays on the
    predecessor.  With the answers 500, 200, 200, ... the write is
    accepted and the promotion never gets to the removal. *)
Theorem accepted_write_without_demotion :
  let r := exec (send_and_label_attachment 4 relapse Sample.candidate)
                Sample.with_older in
  let h := exec (send_and_label_attachment 4 Sample.hiccup Sample.candidate)
                Sample.with_older in
  get_attachment_predecessor Sample.with_older Sample.candidate
  = Ret Sample.older
  /\ In (Label "att10" ["e444"; "rsu"; "latest"] 200) (trace (snd r))
  /\ fst r = Returns tt
  /\ demoted (trace (snd r)) = false
  /\ In (Label "att10" ["e444"; "rsu"; "latest"] 200) (trace (snd h))
  /\ fst h = Spins
  /\ demoted (trace (snd h)) = false.
Proof.
  cbv zeta. repeat split; try (vm_compute; reflexivity);
    vm_compute; do 4 right; left; reflexivity.
Qed.

(** X22.  A removal of [latest] is among the requests of a promotion
    exactly when the method returned, the last label write was answered
    with 200 and a predecessor had been resolved beforehand.  There is
    no removal when the first four label writes are answered with 500
    (and the promotion then returns), nor when no predecessor exists. *)
Theorem demotion_iff_labelled_and_predecessor
        (fuel : nat) (srv : Server) (self : Confluence) (fn : string) :
  let out := fst (exec (send_and_label_attachment fuel srv fn) self) in
  let tr := trace (snd (exec (send_and_label_attachment fuel srv fn) self)) in
  (demoted tr = true <->
   out = Returns tt /\ last_label_status tr = Some 200
   /\ predecessor_found self fn)
  /\ ((forall n, n < 4 -> label_status srv n = 500) ->
      demoted tr = false /\ (3 <= fuel -> out <> Spins))
  /\ (get_attachment_predecessor self fn = Ret EmptyString ->
      demoted tr = false).
Proof.
  cbv zeta. rewrite send_and_label_cases. unfold predecessor_found.
  destruct (get_attachment_predecessor self fn) as [p|e] eqn:Hp;
    [|quiet_branch; intros [_ [_ [q [Hq _]]]]; discriminate].
  destruct (upload srv) as [[[|c rest]|]|e] eqn:Hu;
    try (quiet_branch; intros [_ [Hl _]]; discriminate).
  destruct (parsed_of fn) as [d|e] eqn:Hd;
    [|quiet_branch; intros [Hl _]; discriminate].
  destruct (main_label_of self d) as [main_label|e] eqn:Hm;
    [|quiet_branch; intros [Hl _]; discriminate].
  set (body := [main_label; Str.lower (module d); "latest"]).
  destruct (add_label_spec fuel srv (String c rest) body (mkworld self (sent fn)))
    as [evs [Hw [Hquiet [Hposted Hres]]]].
  pose proof (add_label_all_fail fuel srv (String c rest) body
                (mkworld self (sent fn))) as Hterm.
  destruct (add_label fuel srv (String c rest) body (mkworld self (sent fn)))
    as [[b| |] w]; cbn [fst snd] in *; subst w; cbn [self_ trace] in *.
  - destruct Hres as [s [Hlast [Hb Hfirst]]].
    assert (Hlast' : last_label_status (sent fn ++ evs) = Some s)
      by (now apply last_label_status_app).
    destruct (b && negb (is_empty p)) eqn:Hgo.
    + apply andb_true_iff in Hgo as [-> Hne].
      assert (Hne' : p <> EmptyString)
        by (intros ->; discriminate).
      destruct (resolved_has_attachment self fn p Hp Hne') as [a [-> _]].
      cbn [fst snd trace].
      assert (Hdem : demoted ((sent fn ++ evs)
                                ++ [detected p; Unlabel (id a) "latest"]) = true).
      { rewrite demoted_app. cbn. apply orb_true_r. }
      rewrite Hdem. split; [|split].
      * split; [|reflexivity]. intros _. split; [reflexivity|]. split.
        -- rewrite last_label_status_quiet by reflexivity.
           rewrite Hlast'. symmetry in Hb. apply Nat.eqb_eq in Hb. now subst.
        -- exists p. now split.
      * intros Hall. specialize (Hfirst (Hall 0 ltac:(lia))). discriminate.
      * intros E. injection E as ->. contradiction.
    + cbn [fst snd trace].
      assert (Hdem : demoted (sent fn ++ evs) = false)
        by (rewrite demoted_app, Hquiet; reflexivity).
      rewrite Hdem. split; [|split].
      * split; [discriminate|].
        intros [_ [Hl [q [Hq Hne]]]]. exfalso.
        injection Hq as <-.
        rewrite Hlast' in Hl. injection Hl as ->.
        change (200 =? 200) with true in Hb. subst b.
        rewrite (is_empty_false _ Hne) in Hgo. discriminate.
      * intros _. split; [reflexivity | discriminate].
      * reflexivity.
  - contradiction.
  - assert (Hdem : demoted (sent fn ++ evs) = false)
      by (rewrite demoted_app, Hquiet; reflexivity).
    rewrite Hdem. split; [|split].
    + split; [discriminate|]. intros [H _]. discriminate.
    + intros Hall. split; [reflexivity|].
      intros Hfuel _. now apply (Hterm Hall eq_refl Hfuel).
    + reflexivity.
Qed.

Lemma demotion_iff_labelled_and_predecessor_witness :
  demoted (trace (snd (exec (send_and_label_attachment 3 Sample.failing
                              Sample.candidate) Sample.with_older))) = false
  /\ fst (exec (send_and_label_attachment 3 Sample.failing
                 Sample.candidate) Sample.with_older) <> Spins
  /\ demoted (trace (snd (exec (send_and_label_attachment 3 Sample.healthy
                                 Sample.candidate) Sample.empty_page))) = false
  /\ demoted (trace (snd (exec (send_and_label_attachment 3 Sample.healthy
                                 Sample.candidate) Sample.with_older))) = true.
Proof.
  pose proof (demotion_iff_labelled_and_predecessor 3 Sample.failing
                Sample.with_older Sample.candidate) as [_ [H4 _]].
  pose proof (demotion_iff_labelled_and_predecessor 3 Sample.healthy
                Sample.empty_page Sample.candidate) as [_ [_ Hnone]].
  pose proof (demotion_iff_labelled_and_predecessor 3 Sample.healthy
                Sample.with_older Sample.candidate) as [Hiff _].
  split; [|split; [|split]].
  - apply H4. intros n _. reflexivity.
  - apply H4; [intros n _; reflexivity | lia].
  - apply Hnone. vm_compute. reflexivity.
  - apply Hiff. split; [vm_compute; reflexivity|].
    split; [vm_compute; reflexivity|].
    exists Sample.older. split; [vm_compute; reflexivity | vm_compute; discriminate].
Defined.

Lemma predecessor_needs_parse (self : Confluence) (fn : string) (d : parsed) (e : exn) :
  parsed_of fn = Ret d -> get_attachment_predecessor self fn <> Raise e.
Proof.
  intros H. unfold get_attachment_predecessor. rewrite H. discriminate.
Qed.

(** C8.  The claim is that an upload that yields no id is reported and
    not propagated as an exception.  When the upload is refused and the
    body of the response holds no results, line 486 subscripts None and
    raises TypeError (IndexError for an empty list of results); the
    exception leaves [send_and_label_attachment] right after the upload
    request, before the check of the id, and nothing is reported. *)
Theorem refused_upload_raises :
  exec (send_and_label_attachment 3 refusing Sample.candidate)
       Sample.with_older
  = (Raises TypeError, mkworld Sample.with_older (sent Sample.candidate))
  /\ exec (send_and_label_attachment 3 storing_nothing Sample.candidate)
          Sample.with_older
     = (Raises IndexError, mkworld Sample.with_older (sent Sample.candidate)).
Proof. split; vm_compute; reflexivity. Qed.

(** X23.  When the upload expression itself returns None or an empty
    id, the promotion stops there: no label write and no removal of
    [latest] is issued, and for a file name that parses the method
    returns normally after printing the failure. *)
Theorem no_id_aborts_promotion
        (fuel : nat) (srv : Server) (self : Confluence) (fn : string) :
  no_id_returned srv ->
  let out := fst (exec (send_and_label_attachment fuel srv fn) self) in
  let tr := trace (snd (exec (send_and_label_attachment fuel srv fn) self)) in
  labels_posted tr = 0
  /\ demoted tr = false
  /\ (forall d, parsed_of fn = Ret d ->
        out = Returns tt
        /\ tr = sent fn ++ [Print ("Failed to upload file " ++ fn)]).
Proof.
  intros Hno. cbv zeta. rewrite send_and_label_cases.
  destruct (get_attachment_predecessor self fn) as [p|e] eqn:Hp.
  - destruct Hno as [-> | ->]; cbn [fst snd trace];
      repeat split; reflexivity.
  - cbn [fst snd trace]. repeat split;
      exfalso; eapply predecessor_needs_parse; eassumption.
Qed.

Lemma no_id_aborts_promotion_witness :
  fst (exec (send_and_label_attachment 3 Sample.no_id Sample.candidate)
            Sample.with_older) = Returns tt
  /\ labels_posted
       (trace (snd (exec (send_and_label_attachment 3 Sample.no_id
                            Sample.candidate) Sample.with_older))) = 0.
Proof.
  pose proof (no_id_aborts_promotion 3 Sample.no_id Sample.with_older
                Sample.candidate (or_introl eq_refl)) as [H0 [_ Hd]].
  split; [|exact H0].
  destruct (parsed_of Sample.candidate) as [d|e] eqn:E;
    [|vm_compute in E; discriminate].
  exact (proj1 (Hd d eq_refl)).
Defined.

Lemma first_label_spec (cond : string -> bool) (ls : list string) :
  ((exists l, In l ls /\ cond l = true) -> exists l, first_label cond ls = Ret l)
  /\ (~ (exists l, In l ls /\ cond l = true) ->
      first_label cond ls = Raise IndexError).
Proof.
  unfold first_label.
  destruct (filter cond ls) as [|x r] eqn:E; split.
  - intros [l Hl]. apply filter_In in Hl. rewrite E in Hl. contradiction.
  - reflexivity.
  - intros _. now exists x.
  - intros H. exfalso. apply H. exists x. apply filter_In.
    rewrite E. now left.
Qed.

Lemma main_label_of_spec (self : Confluence) (d : parsed) :
  (label_available self d -> exists l, main_label_of self d = Ret l)
  /\ (~ label_available self d -> main_label_of self d = Raise IndexError).
Proof.
  unfold label_available, main_label_of.
  destruct (truthy (star d)); split; intros H.
  - now apply first_label_spec.
  - now apply first_label_spec.
  - apply first_label_spec. destruct H as [l [Hl Hs]].
    exists l. now rewrite Hs.
  - apply first_label_spec. intros [l [Hl Hs]]. apply H.
    exists l. split; [assumption|]. now apply negb_true_iff.
Qed.

(** C10.  After a successful upload the choice of the release-line
    label raises IndexError exactly when the catalogue holds no label
    for the file's variant (none with "star" for a file with a variant,
    none without it otherwise); the exception leaves the method after
    the upload request and before any label write or report. *)
Theorem missing_label_raises_after_upload
        (fuel : nat) (srv : Server) (self : Confluence) (fn : string)
        (d : parsed) (aid : string) :
  parsed_of fn = Ret d ->
  upload srv = Ret (Some aid) ->
  aid <> EmptyString ->
  let out := fst (exec (send_and_label_attachment fuel srv fn) self) in
  let tr := trace (snd (exec (send_and_label_attachment fuel srv fn) self)) in
  (out = Raises IndexError <-> ~ label_available self d)
  /\ (~ label_available self d -> tr = sent fn).
Proof.
  intros Hd Hu Hne. cbv zeta. rewrite send_and_label_cases.
  destruct (get_attachment_predecessor self fn) as [p|e] eqn:Hp;
    [|exfalso; eapply predecessor_needs_parse; eassumption].
  rewrite Hu, Hd. destruct aid as [|c rest]; [congruence|].
  destruct (main_label_of_spec self d) as [Hyes Hno].
  destruct (main_label_of self d) as [main_label|e] eqn:Hm.
  - assert (Hav : ~ ~ label_available self d).
    { intros H. specialize (Hno H). discriminate. }
    set (body := [main_label; Str.lower (module d); "latest"]).
    destruct (add_label_spec fuel srv (String c rest) body
                (mkworld self (sent fn))) as [evs [_ [_ [_ Hres]]]].
    destruct (add_label fuel srv (String c rest) body (mkworld self (sent fn)))
      as [[b| |] w]; cbn [fst] in Hres; [| contradiction |].
    + split; [|intros H; contradiction].
      split; [|intros H; contradiction].
      destruct (b && negb (is_empty p));
        [destruct (search_attachment_by_name self p)|]; discriminate.
    + split; [|intros H; contradiction].
      split; [discriminate | intros H; contradiction].
  - assert (Hav : ~ label_available self d).
    { intros H. destruct (Hyes H) as [l Hl]. discriminate. }
    pose proof (Hno Hav) as E. injection E as ->.
    cbn [fst snd trace]. split; [split|]; auto.
Qed.

Lemma missing_label_raises_after_upload_witness :
  fst (exec (send_and_label_attachment 3 Sample.healthy Sample.candidate)
            Sample.only_star) = Raises IndexError.
Proof.
  destruct (parsed_of Sample.candidate) as [d|e] eqn:E;
    [|vm_compute in E; discriminate].
  apply (proj1 (missing_label_raises_after_upload 3 Sample.healthy
                  Sample.only_star Sample.candidate d "att10" E eq_refl
                  ltac:(discriminate))).
  vm_compute in E. injection E as <-.
  intros [l [[<-|[]] Hs]]. vm_compute in Hs. discriminate.
Defined.

(* ================================================================= *)
(** ** Re-ingestion *)

Lemma promotion_keeps_self (fuel : nat) (srv : Server) (self : Confluence)
      (fn : string) :
  self_ (snd (exec (send_and_label_attachment fuel srv fn) self)) = self.
Proof.
  rewrite send_and_label_cases.
  destruct (get_attachment_predecessor self fn) as [p|e]; [|reflexivity].
  destruct (upload srv) as [[[|c rest]|]|e]; try reflexivity.
  destruct (parsed_of fn) as [d|e]; [|reflexivity].
  destruct (main_label_of self d) as [main_label|e]; [|reflexivity].
  set (body := [main_label; Str.lower (module d); "latest"]).
  destruct (add_label_spec fuel srv (String c rest) body
              (mkworld self (sent fn))) as [evs [Hw _]].
  destruct (add_label fuel srv (String c rest) body (mkworld self (sent fn)))
    as [[b| |] w]; cbn [snd] in Hw; subst w; try reflexivity.
  destruct (b && negb (is_empty p));
    [destruct (search_attachment_by_name self p)|]; reflexivity.
Qed.

(** C7 (as the code has it).  The titles cached by [__init__] are not
    refreshed by a promotion, so a second submission in the same
    session gets the verdict of the first; a file name that parses is
    rejected with ALREADY_EXISTS in every session that was constructed
    from an attachment list holding that title, as one started after
    the upload is. *)
Theorem resubmission_rejected_in_later_session :
  (forall fuel srv self fn,
      resubmit fuel srv self fn = file_eligible_for_upload self fn)
  /\
  (forall body stored self fn d,
      init body stored = Ret self ->
      In fn (map title stored) ->
      parse_testfile_name fn = Ret (Some d) ->
      file_eligible_for_upload self fn = Ret (reject ALREADY_EXISTS)).
Proof.
  split.
  - intros fuel srv self fn. unfold resubmit.
    now rewrite promotion_keeps_self.
  - intros body stored self fn d Hinit Hin Hparse.
    unfold init in Hinit.
    destruct (get_current_labels body) as [ls|e]; [|discriminate].
    cbn [rbind] in Hinit. injection Hinit as <-.
    unfold file_eligible_for_upload, file_exists. rewrite Hparse.
    cbn [rbind attachment_titles].
    apply mem_In in Hin. now rewrite Hin.
Qed.

Lemma resubmission_rejected_in_later_session_witness :
  exists self,
    init Sample.body_ok [mkattachment Sample.candidate "att10" []] = Ret self
    /\ file_eligible_for_upload self Sample.candidate
       = Ret (reject ALREADY_EXISTS).
Proof.
  destruct (init Sample.body_ok [mkattachment Sample.candidate "att10" []])
    as [self|e] eqn:E; [|vm_compute in E; discriminate].
  destruct (parse_testfile_name Sample.candidate) as [[d|]|e] eqn:P;
    try (vm_compute in P; discriminate).
  exists self. split; [reflexivity|].
  apply (proj2 resubmission_rejected_in_later_session Sample.body_ok
               [mkattachment Sample.candidate "att10" []] self
               Sample.candidate d E (or_introl eq_refl) P).
Defined.

(** C7, as worded: in the session that accepted and uploaded the file,
    the same name is accepted again instead of being rejected with
    ALREADY_EXISTS. *)
Lemma resubmission_accepted_in_same_session :
  file_eligible_for_upload Sample.empty_page Sample.candidate
  = Ret (accept NO_PREDECESSOR)
  /\ In (Upload Sample.candidate)
        (trace (snd (exec (send_and_label_attachment 3 Sample.healthy
                             Sample.candidate) Sample.empty_page)))
  /\ resubmit 3 Sample.healthy Sample.empty_page Sample.candidate
     = Ret (accept NO_PREDECESSOR)
  /\ resubmit 3 Sample.healthy Sample.empty_page Sample.candidate
     <> Ret (reject ALREADY_EXISTS).
Proof.
  split; [vm_compute; reflexivity|].
  split; [vm_compute; right; left; reflexivity|].
  split; [vm_compute; reflexivity | vm_compute; discriminate].
Qed.

(* ================================================================= *)
(** ** The scenarios of the specification, evaluated *)

Example scenario_parse :
  parse_testfile_name Sample.candidate
  = Ret (Some (mkparsed None "RSU" "E444.303_2023-03-29_v700.208.1"
                        "E444.303" (mkdate 2023 3 29) "v700.208.1")).
Proof. vm_compute. reflexivity. Qed.

Example scenario_variant :
  parsed_of Sample.star_candidate
  = Ret (mkparsed (Some "Star_2") "codd" "E444.303_2023-03-29_v700.208.1"
                  "E444.303" (mkdate 2023 3 29) "v700.208.1")
  /\ get_attachment_predecessor Sample.with_older Sample.star_candidate
     = Ret EmptyString.
Proof. split; vm_compute; reflexivity. Qed.

Example scenario_earlier_candidate :
  file_eligible_for_upload Sample.with_older Sample.early
  = Ret (reject PREDECESSOR_NEWER).
Proof. vm_compute. reflexivity. Qed.

Example scenario_catalogue :
  get_current_labels Sample.body_ok = Ret Sample.catalog
  /\ get_current_labels Sample.body_none = Raise UserWarning.
Proof. split; vm_compute; reflexivity. Qed.

Example scenario_four_failures :
  exec (add_label 3 Sample.failing "att10" ["e444"; "rsu"; "latest"])
       Sample.empty_page
  = (Returns false,
     mkworld Sample.empty_page
       [Label "att10" ["e444"; "rsu"; "latest"] 500; Sleep 3;
        Label "att10" ["e444"; "rsu"; "latest"] 500; Sleep 3;
        Label "att10" ["e444"; "rsu"; "latest"] 500; Sleep 3;
        Label "att10" ["e444"; "rsu"; "latest"] 500]).
Proof. vm_compute. reflexivity. Qed.

Example scenario_hiccup :
  fst (exec (send_and_label_attachment 4 Sample.hiccup Sample.candidate)
            Sample.with_older) = Spins
  /\ labels_posted
       (trace (snd (exec (send_and_label_attachment 4 Sample.hiccup
                            Sample.candidate) Sample.with_older))) = 5.
Proof. split; vm_compute; reflexivity. Qed.

(* ================================================================= *)
(** ** The matcher only captures what the pattern describes *)

Lemma append_nil_r (s : string) : (s ++ "")%string = s.
Proof. induction s as [|c s IH]; [reflexivity | simpl; now rewrite IH]. Qed.

Lemma append_assoc (a b c : string) :
  ((a ++ b) ++ c)%string = (a ++ (b ++ c))%string.
Proof. induction a as [|x a IH]; [reflexivity | simpl; now rewrite IH]. Qed.

Lemma length_append (a b : string) :
  String.length (a ++ b) = String.length a + String.length b.
Proof. induction a as [|x a IH]; [reflexivity | simpl; now rewrite IH]. Qed.

Lemma substring_prefix (m s : string) :
  substring 0 (String.length m) (m ++ s) = m.
Proof. induction m as [|c m IH]; [now destruct s | simpl; now rewrite IH]. Qed.

Lemma substring_middle (pre m s : string) :
  substring (String.length pre) (String.length m) (pre ++ m ++ s) = m.
Proof.
  induction pre as [|c pre IH]; simpl; [apply substring_prefix | exact IH].
Qed.

Lemma suffix_at_advance (text : string) (pos : nat) (m s : string) :
  Shape.suffix_at text pos (m ++ s) ->
  Shape.suffix_at text (pos + String.length m) s.
Proof.
  intros [pre [E L]]. exists (pre ++ m)%string. split.
  - now rewrite append_assoc.
  - now rewrite length_append, L.
Qed.

Lemma group_In (n : nat) (cs : Re.captures) (x : string) :
  Re.group n cs = Some x -> In (n, x) cs.
Proof.
  induction cs as [|[m s] cs IH]; [discriminate|]. simpl.
  destruct (m =? n) eqn:E.
  - apply Nat.eqb_eq in E. intros H. injection H as ->. left. now subst.
  - intros H. right. now apply IH.
Qed.

Section RunSound.
Import Re Shape.
Variable text : string.

Lemma run_sound (r : regex) :
  forall pos s cs k res,
    run text r pos s cs k = Some res ->
    suffix_at text pos s ->
    handed r pos s cs k res.
Proof.
  induction r as [|p| | |r1 IH1 r2 IH2|r1 IH1 r2 IH2|r1 IH1|n r1 IH1];
    intros pos s cs k res Hrun Hsuf.
  - cbn [run] in Hrun. exists EmptyString, s, cs. rewrite Nat.add_0_r.
    repeat split; [constructor | assumption | auto].
  - cbn [run] in Hrun. destruct s as [|c s']; [discriminate|].
    destruct (p c) eqn:Hp; [|discriminate].
    exists (String c EmptyString), s', cs. cbn [String.length].
    rewrite Nat.add_1_r.
    repeat split; [now constructor | assumption | auto].
  - cbn [run] in Hrun. destruct (pos =? 0); [|discriminate].
    exists EmptyString, s, cs. rewrite Nat.add_0_r.
    repeat split; [constructor | assumption | auto].
  - cbn [run] in Hrun. destruct (at_eol s); [|discriminate].
    exists EmptyString, s, cs. rewrite Nat.add_0_r.
    repeat split; [constructor | assumption | auto].
  - cbn [run] in Hrun.
    destruct (IH1 _ _ _ _ _ Hrun Hsuf) as [m1 [s1 [cs1 [-> [L1 [Hk1 Hc1]]]]]].
    apply suffix_at_advance in Hsuf.
    destruct (IH2 _ _ _ _ _ Hk1 Hsuf) as [m2 [s2 [cs2 [-> [L2 [Hk2 Hc2]]]]]].
    exists (m1 ++ m2)%string, s2, cs2.
    rewrite append_assoc, length_append, Nat.add_assoc.
    repeat split; [now constructor | assumption |].
    intros n x Hin. cbn [captured_by].
    destruct (Hc2 n x Hin) as [H|H]; [|tauto].
    destruct (Hc1 n x H); tauto.
  - cbn [run] in Hrun. destruct (run text r1 pos s cs k) as [c|] eqn:E1.
    + injection Hrun as ->.
      destruct (IH1 _ _ _ _ _ E1 Hsuf) as [m [s' [cs' [-> [L [Hk Hc]]]]]].
      exists m, s', cs'. repeat split; [now apply lang_alt_l | assumption |].
      intros n x Hin. cbn [captured_by]. destruct (Hc n x Hin); tauto.
    + destruct (IH2 _ _ _ _ _ Hrun Hsuf) as [m [s' [cs' [-> [L [Hk Hc]]]]]].
      exists m, s', cs'. repeat split; [now apply lang_alt_r | assumption |].
      intros n x Hin. cbn [captured_by]. destruct (Hc n x Hin); tauto.
  - change (star_loop text r1 k (S (String.length s)) pos s cs = Some res)
      in Hrun.
    revert Hrun. generalize (S (String.length s)) as fuel. intros fuel.
    revert pos s cs Hsuf.
    induction fuel as [|fuel IHf]; intros pos s cs Hsuf Hrun;
      cbn [star_loop] in Hrun.
    + exists EmptyString, s, cs. rewrite Nat.add_0_r.
      repeat split; [apply lang_star_nil | assumption | auto].
    + match type of Hrun with
      | match ?body with _ => _ end = _ => destruct body as [c|] eqn:E1
      end.
      * injection Hrun as ->.
        destruct (IH1 _ _ _ _ _ E1 Hsuf) as [m1 [s1 [cs1 [-> [L1 [Hk1 Hc1]]]]]].
        destruct (pos <? pos + String.length m1); [|discriminate].
        apply suffix_at_advance in Hsuf.
        destruct (IHf _ _ _ Hsuf Hk1) as [m2 [s2 [cs2 [-> [L2 [Hk2 Hc2]]]]]].
        exists (m1 ++ m2)%string, s2, cs2.
        rewrite append_assoc, length_append, Nat.add_assoc.
        repeat split; [now apply lang_star_cons | assumption |].
        intros n x Hin. cbn [captured_by] in *.
        destruct (Hc2 n x Hin) as [H|H]; [|tauto].
        destruct (Hc1 n x H); tauto.
      * exists EmptyString, s, cs. rewrite Nat.add_0_r.
        repeat split; [apply lang_star_nil | assumption | auto].
  - cbn [run] in Hrun.
    destruct (IH1 _ _ _ _ _ Hrun Hsuf) as [m [s' [cs' [-> [L [Hk Hc]]]]]].
    cbv beta in Hk.
    replace (pos + String.length m - pos) with (String.length m) in Hk by lia.
    assert (Hsub : substring pos (String.length m) text = m).
    { destruct Hsuf as [pre [-> <-]]. apply substring_middle. }
    rewrite Hsub in Hk.
    exists m, s', ((n, m) :: cs'). repeat split; [now constructor | assumption |].
    intros n' x [Hin|Hin]; cbn [captured_by].
    + injection Hin as <- <-. right. left. now split.
    + destruct (Hc n' x Hin); tauto.
Qed.

Lemma search_from_sound (r : regex) :
  forall s pos cs,
    search_from text r pos s = Some cs ->
    suffix_at text pos s ->
    forall n x, In (n, x) cs -> captured_by r n x.
Proof.
  induction s as [|c s IH]; intros pos cs Hs Hsuf n x Hin; cbn [search_from] in Hs.
  - destruct (run text r pos EmptyString [] (fun _ _ cs' => Some cs')) eqn:E;
      [|discriminate].
    injection Hs as ->.
    destruct (run_sound r _ _ _ _ _ E Hsuf) as [m [s' [cs' [_ [_ [Hk Hc]]]]]].
    injection Hk as ->. destruct (Hc n x Hin) as [[]|H]; exact H.
  - destruct (run text r pos (String c s) [] (fun _ _ cs' => Some cs')) eqn:E.
    + injection Hs as ->.
      destruct (run_sound r _ _ _ _ _ E Hsuf) as [m [s' [cs' [_ [_ [Hk Hc]]]]]].
      injection Hk as ->. destruct (Hc n x Hin) as [[]|H]; exact H.
    + apply (IH (S pos) cs Hs); [|exact Hin].
      change (String c s) with (String c EmptyString ++ s)%string in Hsuf.
      apply suffix_at_advance in Hsuf. cbn in Hsuf.
      now rewrite Nat.add_1_r in Hsuf.
Qed.

End RunSound.

Lemma search_sound (r : Re.regex) (text : string) (cs : Re.captures)
      (n : nat) (x : string) :
  Re.search r text = Some cs ->
  Re.group n cs = Some x ->
  Shape.captured_by r n x.
Proof.
  intros Hs Hg. apply group_In in Hg.
  apply (search_from_sound text r text 0 cs Hs); [|exact Hg].
  exists EmptyString. now split.
Qed.

(* ================================================================= *)
(** ** What parse_testfile_name returns *)

Lemma captured_by_lit (ic : bool) (s : string) (n : nat) (x : string) :
  ~ Shape.captured_by (Re.lit ic s) n x.
Proof.
  induction s as [|a s IH]; cbn; [tauto|]. intros [[]|H]. now apply IH.
Qed.

(** A literal consumes as many characters as it has, whatever the
    rule for letter case is. *)
Lemma lang_lit_length (ic : bool) (s x : string) :
  Shape.lang (Re.lit ic s) x -> String.length x = String.length s.
Proof.
  revert x. induction s as [|a s IH]; intros x H; cbn [Re.lit] in H.
  - inversion H. reflexivity.
  - inversion H as [| | | |r1 r2 x1 x2 H1 H2| | | | |]; subst.
    unfold Re.lit_char in H1.
    inversion H1 as [|p c Hp| | | | | | | |]; subst.
    cbn. now rewrite (IH _ H2).
Qed.

(** What the groups of a successful parse are. *)
Lemma parse_groups (fn : string) (d : parsed) :
  parse_testfile_name fn = Ret (Some d) ->
  exists cs g5,
    Re.search Pattern.pattern fn = Some cs
    /\ Re.group 1 cs = star d
    /\ Re.group 2 cs = Some (module d)
    /\ Re.group 5 cs = Some g5
    /\ Datetime.strptime g5 = Ret (date d).
Proof.
  unfold parse_testfile_name. intros H.
  destruct (Re.search Pattern.pattern fn) as [cs|]; [|discriminate].
  destruct (Re.group 2 cs) as [g2|] eqn:E2; [|discriminate].
  destruct (Re.group 3 cs) as [g3|]; [|discriminate].
  destruct (Re.group 4 cs) as [g4|]; [|discriminate].
  destruct (Re.group 5 cs) as [g5|] eqn:E5; [|discriminate].
  destruct (Re.group 6 cs) as [g6|]; [|discriminate].
  destruct (Datetime.strptime g5) as [dt|e] eqn:Ed; [|discriminate].
  cbn [rbind] in H. injection H as <-. exists cs, g5. cbn.
  repeat split; assumption.
Qed.

Ltac captured_cases :=
  repeat match goal with
    | H : False |- _ => contradiction
    | H : _ \/ _ |- _ => destruct H as [H|H]
    | H : _ = _ /\ Shape.lang _ _ |- _ =>
        let E := fresh "E" in destruct H as [E H]; try discriminate E
    | H : Shape.captured_by (Re.lit _ _) _ _ |- _ =>
        apply captured_by_lit in H
    end.

Ltac open_pattern H :=
  unfold Pattern.pattern, Pattern.pattern_full_release, Pattern.pattern_star,
    Pattern.pattern_module, Pattern.pattern_release, Pattern.pattern_date,
    Pattern.pattern_version, Re.Opt, Re.Plus, Re.digit, Re.dot,
    Re.upper_class in H;
  cbn [Re.Times Shape.captured_by] in H.

Lemma star_shape (x : string) :
  Shape.captured_by Pattern.pattern 1 x -> 6 <= String.length x.
Proof.
  intros H. open_pattern H. captured_cases.
  inversion H as [| | | |r1 r2 word digits Hw Hd| | | | |]; subst.
  rewrite length_append, (lang_lit_length _ "Star_" word Hw).
  inversion Hd as [| | | |r1 r2 d1 d2 H1 H2| | | | |]; subst.
  inversion H1 as [|p c Hp| | | | | | | |]; subst.
  cbn. lia.
Qed.

(** X2.  When parse reports a variant, the reported text has at least
    six characters (the five of Star_ and one digit or more), so it is
    never the empty string: the variant counts as present exactly when
    group 1 took part in the match. *)
Theorem parsed_variant_shape (fn : string) (d : parsed) (v : string) :
  parse_testfile_name fn = Ret (Some d) ->
  star d = Some v ->
  truthy (star d) = true /\ 6 <= String.length v.
Proof.
  intros H Hv. destruct (parse_groups fn d H) as [cs [g5 [Hs [H1 _]]]].
  rewrite Hv in H1.
  pose proof (star_shape _ (search_sound _ _ _ _ _ Hs H1)) as Hlen.
  split; [|exact Hlen].
  rewrite Hv. destruct v as [|c v]; [cbn in Hlen; lia | reflexivity].
Qed.

Lemma parsed_variant_shape_witness :
  exists d, parse_testfile_name Sample.star_candidate = Ret (Some d)
            /\ truthy (star d) = true.
Proof.
  destruct (parse_testfile_name Sample.star_candidate) as [[d|]|e] eqn:E;
    try (vm_compute in E; discriminate).
  exists d. split; [reflexivity|].
  apply (proj1 (parsed_variant_shape Sample.star_candidate d "Star_2" E
                  ltac:(vm_compute in E; injection E as <-; reflexivity))).
Defined.

(** X3.  The date of every identifier that parse returns is a date of
    the calendar: the month is between 1 and 12 and the day between 1
    and the length of that month in that year. *)
Theorem parsed_date_in_calendar (fn : string) (d : parsed) :
  parse_testfile_name fn = Ret (Some d) ->
  1 <= year (date d) <= 9999
  /\ 1 <= month (date d) <= 12
  /\ 1 <= day (date d) <= Datetime.days_in_month (year (date d)) (month (date d)).
Proof.
  intros H. destruct (parse_groups fn d H) as [cs [g5 [_ [_ [_ [_ Hd]]]]]].
  unfold Datetime.strptime in Hd.
  destruct (Re.match_start g5 Datetime.format_regex) as [found|]; [|discriminate].
  destruct (Re.group 0 found) as [whole|]; [|discriminate].
  destruct (Re.group 1 found) as [Y|]; [|discriminate].
  destruct (Re.group 2 found) as [m|]; [|discriminate].
  destruct (Re.group 3 found) as [dd|]; [|discriminate].
  destruct (negb _); [discriminate|].
  destruct (Datetime.valid (Str.int Y) (Str.int m) (Str.int dd)) eqn:V;
    [|discriminate].
  injection Hd as <-. cbn [year month day].
  unfold Datetime.valid in V.
  repeat (apply andb_true_iff in V as [V ?]).
  repeat match goal with
         | H : (_ <=? _) = true |- _ => apply Nat.leb_le in H
         end.
  lia.
Qed.

Lemma parsed_date_in_calendar_witness :
  exists d, parse_testfile_name Sample.candidate = Ret (Some d)
            /\ 1 <= month (date d) <= 12.
Proof.
  destruct (parse_testfile_name Sample.candidate) as [[d|]|e] eqn:E;
    try (vm_compute in E; discriminate).
  exists d. split; [reflexivity|].
  exact (proj1 (proj2 (parsed_date_in_calendar Sample.candidate d E))).
Defined.

(* ================================================================= *)
(** ** Dates and the comparison *)

Lemma datetime_eq (a b : datetime) :
  year a = year b -> month a = month b -> day a = day b -> a = b.
Proof. destruct a, b. cbn. now intros -> -> ->. Qed.

Lemma date_is_newer_parsed (a b : string) (da db : parsed) :
  parsed_of a = Ret da -> parsed_of b = Ret db ->
  date_is_newer a b = Ret (Datetime.gt (date da) (date db)).
Proof. intros Ha Hb. unfold date_is_newer. now rewrite Ha, Hb. Qed.

(** X4.  On two names that parse, "is newer" is a strict order on the
    dates: it never holds both ways nor of a name against itself, and
    when it holds in neither direction the two dates are the same
    day. *)
Theorem date_is_newer_strict_order (a b : string) (da db : parsed) :
  parsed_of a = Ret da ->
  parsed_of b = Ret db ->
  (date_is_newer a b = Ret true -> date_is_newer b a = Ret false)
  /\ date_is_newer a a = Ret false
  /\ (date_is_newer a b = Ret false -> date_is_newer b a = Ret false ->
      date da = date db).
Proof.
  intros Ha Hb.
  rewrite (date_is_newer_parsed a b da db Ha Hb),
    (date_is_newer_parsed b a db da Hb Ha),
    (date_is_newer_parsed a a da da Ha Ha).
  split; [|split].
  - intros H. injection H as H. apply gt_later in H. f_equal.
    apply not_later_gt. unfold later in *. lia.
  - f_equal. apply not_later_gt, later_irrefl.
  - intros H1 H2. injection H1 as H1. injection H2 as H2.
    assert (N1 : ~ later (date da) (date db))
      by (intros L; apply gt_later in L; congruence).
    assert (N2 : ~ later (date db) (date da))
      by (intros L; apply gt_later in L; congruence).
    unfold later in *. apply datetime_eq; lia.
Qed.

Lemma date_is_newer_strict_order_witness :
  date_is_newer Sample.older Sample.candidate = Ret false.
Proof.
  destruct (parsed_of Sample.candidate) as [da|e] eqn:Ea;
    [|vm_compute in Ea; discriminate].
  destruct (parsed_of Sample.older) as [db|e] eqn:Eb;
    [|vm_compute in Eb; discriminate].
  apply (proj1 (date_is_newer_strict_order Sample.candidate Sample.older
                  da db Ea Eb)).
  vm_compute. reflexivity.
Defined.

(* ================================================================= *)
(** ** Looking attachments up *)

Lemma filter_head {A} (f : A -> bool) (l : list A) (a : A) (r : list A) :
  filter f l = a :: r ->
  exists l1 l2, l = l1 ++ a :: l2
                /\ f a = true
                /\ forall b, In b l1 -> f b = false.
Proof.
  induction l as [|x l IH]; [discriminate|]. simpl.
  destruct (f x) eqn:E.
  - intros H. injection H as <- _. exists [], l. repeat split; auto.
    intros b [].
  - intros H. destruct (IH H) as [l1 [l2 [-> [Ha Hb]]]].
    exists (x :: l1), l2. repeat split; auto.
    intros b [<-|Hin]; auto.
Qed.

(** X5.  [search_attachment_by_name] answers the first attachment of
    the cached list whose title is the name, and None exactly when no
    cached attachment has that title. *)
Theorem search_attachment_by_name_first (self : Confluence) (name : string) :
  (forall a, search_attachment_by_name self name = Some a ->
     exists before after,
       attachments self = before ++ a :: after
       /\ title a = name
       /\ forall b, In b before -> title b <> name)
  /\ (search_attachment_by_name self name = None <->
      ~ In name (map title (attachments self))).
Proof.
  unfold search_attachment_by_name. split.
  - intros a H.
    destruct (filter (fun attachment => String.eqb name (title attachment))
                     (attachments self)) as [|x r] eqn:E; [discriminate|].
    injection H as ->.
    destruct (filter_head _ _ _ _ E) as [l1 [l2 [-> [Ha Hb]]]].
    exists l1, l2. split; [reflexivity|]. split.
    + apply String.eqb_eq in Ha. now symmetry.
    + intros b Hin Heq. specialize (Hb b Hin).
      apply String.eqb_neq in Hb. now symmetry in Heq.
  - destruct (filter (fun attachment => String.eqb name (title attachment))
                     (attachments self)) as [|x r] eqn:E; split.
    + intros _ Hin. apply in_map_iff in Hin as [a [Ht Ha]].
      assert (Hf : In a (filter (fun attachment => String.eqb name (title attachment))
                                (attachments self))).
      { apply filter_In. split; [assumption|]. rewrite Ht. apply String.eqb_refl. }
      rewrite E in Hf. contradiction.
    + reflexivity.
    + discriminate.
    + intros H. exfalso. apply H. apply in_map_iff. exists x.
      assert (Hx : In x (filter (fun attachment => String.eqb name (title attachment))
                                (attachments self)))
        by (rewrite E; now left).
      apply filter_In in Hx as [Hx Ht]. apply String.eqb_eq in Ht. auto.
Qed.

Lemma search_attachment_by_name_first_witness :
  search_attachment_by_name Sample.empty_page Sample.older = None.
Proof.
  apply (proj2 (search_attachment_by_name_first Sample.empty_page Sample.older)).
  simpl. tauto.
Defined.

Lemma wanted_labels_iff (wanted : list string) (a : Attachment) :
  forallb (fun l => mem l (parse_attachment_labels a)) wanted = true
  <-> forall l, In l wanted -> In l (labels a).
Proof.
  rewrite forallb_forall. unfold parse_attachment_labels.
  split; intros H l Hl; apply mem_In; auto.
Qed.

(** X6.  [search_attachments_by_label] keeps, in their cached order,
    exactly the attachments that carry every wanted label; the wanted
    labels count as a set, so their order and repetitions do not
    matter, and with no wanted label every attachment is kept. *)
Theorem search_attachments_by_label_set (self : Confluence) :
  (forall wanted a,
      In a (search_attachments_by_label self wanted)
      <-> In a (attachments self) /\ forall l, In l wanted -> In l (labels a))
  /\ (forall wanted1 wanted2,
         (forall l, In l wanted1 <-> In l wanted2) ->
         search_attachments_by_label self wanted1
         = search_attachments_by_label self wanted2)
  /\ search_attachments_by_label self [] = attachments self.
Proof.
  unfold search_attachments_by_label. split; [|split].
  - intros wanted a. rewrite filter_In, wanted_labels_iff. tauto.
  - intros w1 w2 H. apply filter_ext. intros a.
    destruct (forallb (fun l => mem l (parse_attachment_labels a)) w2) eqn:E2.
    + apply wanted_labels_iff. intros l Hl.
      apply (proj1 (wanted_labels_iff w2 a) E2). now apply H.
    + destruct (forallb (fun l => mem l (parse_attachment_labels a)) w1) eqn:E1;
        [|reflexivity].
      rewrite <- E2. symmetry. apply wanted_labels_iff. intros l Hl.
      apply (proj1 (wanted_labels_iff w1 a) E1). now apply H.
  - induction (attachments self) as [|a l IH]; [reflexivity|].
    simpl in *. now rewrite IH.
Qed.

Lemma search_attachments_by_label_set_witness :
  search_attachments_by_label Sample.with_older ["latest"; "e444"]
  = search_attachments_by_label Sample.with_older ["e444"; "latest"; "e444"].
Proof.
  apply (proj1 (proj2 (search_attachments_by_label_set Sample.with_older))).
  intros l. simpl. tauto.
Defined.

Lemma resolved_in_titles (self : Confluence) (fn p : string) :
  get_attachment_predecessor self fn = Ret p ->
  p <> EmptyString ->
  In p (map title (attachments self)).
Proof.
  intros H Hne.
  destruct (resolved_has_attachment self fn p H Hne) as [a [Ha Ht]].
  unfold search_attachment_by_name in Ha.
  destruct (filter (fun attachment => String.eqb p (title attachment))
                   (attachments self)) as [|x r] eqn:E; [discriminate|].
  injection Ha as ->.
  assert (Hx : In a (filter (fun attachment => String.eqb p (title attachment))
                            (attachments self)))
    by (rewrite E; now left).
  apply filter_In in Hx as [Hx _].
  apply in_map_iff. exists a. now split.
Qed.

(** X7.  In a session built by [__init__], whatever is resolved as a
    predecessor is one of the cached titles and contains the search
    prefix of the candidate; so the predecessor itself, if its title
    parses, is rejected with ALREADY_EXISTS when it is submitted. *)
Theorem predecessor_is_cached_title
        (body : page) (stored : list Attachment) (self : Confluence)
        (fn p : string) (d : parsed) :
  init body stored = Ret self ->
  parsed_of fn = Ret d ->
  get_attachment_predecessor self fn = Ret p ->
  p <> EmptyString ->
  file_exists self p = true
  /\ Str.contains (search_prefix d) p = true
  /\ (forall dp, parse_testfile_name p = Ret (Some dp) ->
        file_eligible_for_upload self p = Ret (reject ALREADY_EXISTS)).
Proof.
  intros Hinit Hd Hp Hne.
  assert (Hex : file_exists self p = true).
  { pose proof (resolved_in_titles self fn p Hp Hne) as Hin.
    unfold init in Hinit.
    destruct (get_current_labels body) as [ls|e]; [|discriminate].
    cbn [rbind] in Hinit. injection Hinit as <-.
    unfold file_exists. cbn [attachment_titles attachments] in *.
    now apply mem_In. }
  split; [exact Hex|]. split.
  - unfold get_attachment_predecessor in Hp. rewrite Hd in Hp.
    cbn [rbind] in Hp. injection Hp as Hp.
    rewrite predecessor_loop_last in Hp.
    destruct (filter (Str.contains (search_prefix d))
                     (get_latest_labeled_attachments self)) as [|x l] eqn:E.
    + simpl in Hp. congruence.
    + assert (Hl : In (last (x :: l) EmptyString) (x :: l))
        by (apply last_In; discriminate).
      rewrite Hp, <- E in Hl. now apply filter_In in Hl as [_ Hl].
  - intros dp Hdp. unfold file_eligible_for_upload.
    rewrite Hdp. cbn [rbind]. now rewrite Hex.
Qed.

Lemma predecessor_is_cached_title_witness :
  exists self,
    init Sample.body_ok [Sample.older_att] = Ret self
    /\ file_eligible_for_upload self Sample.older = Ret (reject ALREADY_EXISTS).
Proof.
  destruct (init Sample.body_ok [Sample.older_att]) as [self|e] eqn:E;
    [|vm_compute in E; discriminate].
  destruct (parsed_of Sample.candidate) as [d|e] eqn:Ed;
    [|vm_compute in Ed; discriminate].
  destruct (parse_testfile_name Sample.older) as [[dp|]|e] eqn:Ep;
    try (vm_compute in Ep; discriminate).
  exists self. split; [reflexivity|].
  refine (proj2 (proj2 (predecessor_is_cached_title Sample.body_ok
                          [Sample.older_att] self Sample.candidate
                          Sample.older d E Ed _ _)) dp Ep).
  - vm_compute in E. injection E as <-. vm_compute. reflexivity.
  - vm_compute. discriminate.
Defined.

(* ================================================================= *)
(** ** When the eligibility decision accepts, and when it raises *)

Lemma predecessor_after_parse (self : Confluence) (fn : string) (d : parsed) :
  parse_testfile_name fn = Ret (Some d) ->
  exists p, get_attachment_predecessor self fn = Ret p.
Proof.
  intros H. unfold get_attachment_predecessor.
  rewrite (parsed_of_parse _ _ H). cbn [rbind]. eauto.
Qed.

(** X8.  A file is accepted only if its name parses, is not among the
    cached titles, and either no predecessor is resolved or the
    resolved one parses and has a strictly earlier date; conversely
    every such file is accepted. *)
Theorem accepted_iff (self : Confluence) (fn : string) :
  (exists line, file_eligible_for_upload self fn = Ret (line, true))
  <->
  exists d p,
    parse_testfile_name fn = Ret (Some d)
    /\ ~ In fn (attachment_titles self)
    /\ get_attachment_predecessor self fn = Ret p
    /\ (p = EmptyString
        \/ exists dp, parse_testfile_name p = Ret (Some dp)
                      /\ later (date d) (date dp)).
Proof.
  unfold file_eligible_for_upload, file_exists. split.
  - intros [line H].
    destruct (parse_testfile_name fn) as [[d|]|e] eqn:Hd; try discriminate.
    cbn [rbind] in H.
    destruct (mem fn (attachment_titles self)) eqn:Hm; [discriminate|].
    destruct (predecessor_after_parse self fn d Hd) as [p Hp].
    rewrite Hp in H. cbn [rbind] in H.
    exists d, p. split; [reflexivity|]. split.
    { intros Hin. apply mem_In in Hin. congruence. }
    split; [exact Hp|].
    destruct p as [|c p]; [now left|]. right.
    cbn [is_empty] in H. unfold date_is_newer in H.
    rewrite (parsed_of_parse _ _ Hd) in H. cbn [rbind] in H.
    unfold parsed_of in H.
    destruct (parse_testfile_name (String c p)) as [[dp|]|e] eqn:Hdp;
      try discriminate.
    cbn [rbind] in H. exists dp. split; [reflexivity|].
    apply gt_later. destruct (Datetime.gt (date d) (date dp));
      [reflexivity | discriminate].
  - intros [d [p [Hd [Hnot [Hp Hcase]]]]].
    rewrite Hd. cbn [rbind]. rewrite (mem_not_In _ _ Hnot), Hp. cbn [rbind].
    destruct Hcase as [->|[dp [Hdp L]]].
    + eexists. reflexivity.
    + destruct (is_empty p); [eexists; reflexivity|].
      unfold date_is_newer.
      rewrite (parsed_of_parse _ _ Hd), (parsed_of_parse _ _ Hdp).
      cbn [rbind]. apply gt_later in L. rewrite L. eexists. reflexivity.
Qed.

(** X9.  The eligibility decision raises exactly when parse raises on
    the candidate, or when the candidate passes the first two rules and
    the title resolved as its predecessor cannot be read: ValueError
    for an impossible date in either name, TypeError for a predecessor
    title that does not match the pattern. *)
Theorem eligibility_raises_iff (self : Confluence) (fn : string) (e : exn) :
  file_eligible_for_upload self fn = Raise e
  <->
  parse_testfile_name fn = Raise e
  \/ exists d p,
       parse_testfile_name fn = Ret (Some d)
       /\ ~ In fn (attachment_titles self)
       /\ get_attachment_predecessor self fn = Ret p
       /\ p <> EmptyString
       /\ parsed_of p = Raise e.
Proof.
  unfold file_eligible_for_upload, file_exists. split.
  - intros H.
    destruct (parse_testfile_name fn) as [[d|]|e'] eqn:Hd;
      [|discriminate|left; cbn [rbind] in H; now injection H as ->].
    right. cbn [rbind] in H.
    destruct (mem fn (attachment_titles self)) eqn:Hm; [discriminate|].
    destruct (predecessor_after_parse self fn d Hd) as [p Hp].
    rewrite Hp in H. cbn [rbind] in H.
    exists d, p. split; [reflexivity|]. split.
    { intros Hin. apply mem_In in Hin. congruence. }
    split; [exact Hp|].
    destruct p as [|c p]; [discriminate|]. split; [discriminate|].
    cbn [is_empty] in H. unfold date_is_newer in H.
    rewrite (parsed_of_parse _ _ Hd) in H. cbn [rbind] in H.
    destruct (parsed_of (String c p)) as [dp|e'];
      [|cbn [rbind] in H; now injection H as ->].
    cbn [rbind] in H. destruct (Datetime.gt _ _); discriminate.
  - intros [H|[d [p [Hd [Hnot [Hp [Hne He]]]]]]].
    + now rewrite H.
    + rewrite Hd. cbn [rbind]. rewrite (mem_not_In _ _ Hnot), Hp.
      cbn [rbind]. rewrite (is_empty_false _ Hne).
      unfold date_is_newer. rewrite (parsed_of_parse _ _ Hd), He.
      reflexivity.
Qed.

Lemma accepted_iff_witness :
  exists line,
    file_eligible_for_upload Sample.with_older Sample.candidate
    = Ret (line, true).
Proof.
  destruct (parse_testfile_name Sample.candidate) as [[d|]|e] eqn:Ed;
    try (vm_compute in Ed; discriminate).
  destruct (parse_testfile_name Sample.older) as [[dp|]|e] eqn:Ep;
    try (vm_compute in Ep; discriminate).
  apply (proj2 (accepted_iff Sample.with_older Sample.candidate)).
  exists d, Sample.older. split; [exact Ed|]. split.
  - simpl. intros [H|[]]. vm_compute in H. discriminate.
  - split; [vm_compute in Ed; injection Ed as <-; vm_compute; reflexivity|].
    right. exists dp. split; [exact Ep|].
    vm_compute in Ed. vm_compute in Ep.
    injection Ed as <-. injection Ep as <-. unfold later. simpl. lia.
Defined.

Lemma eligibility_raises_iff_witness :
  file_eligible_for_upload Sample.empty_page Sample.february_30
  = Raise ValueError.
Proof.
  apply (proj2 (eligibility_raises_iff Sample.empty_page Sample.february_30
                  ValueError)).
  left. vm_compute. reflexivity.
Defined.

(* ================================================================= *)
(** ** What the label catalogue holds *)

Lemma normalised_char (c : ascii) :
  label_char_ok
    ((fun c => if Ascii.eqb c " " then "_"%char else c)
       ((fun c => if Ascii.eqb c "-" then "_"%char else c)
          (Str.lower_char c))) = true.
Proof. destruct c as [[] [] [] [] [] [] [] []]; vm_compute; reflexivity. Qed.

Lemma normalised_string (g : string) :
  Shape.all_chars label_char_ok
    (Str.replace " " "_" (Str.replace "-" "_" (Str.lower g))) = true.
Proof.
  induction g as [|c g IH]; [reflexivity|].
  unfold Str.replace, Str.lower in *. cbn [Str.map Shape.all_chars].
  rewrite IH, andb_true_r. apply normalised_char.
Qed.

Lemma label_of_normalised (v l : string) :
  Labels.label_of v = Ret l -> Shape.all_chars label_char_ok l = true.
Proof.
  unfold Labels.label_of.
  destruct (Re.search Labels.label_pattern v) as [m|]; [|discriminate].
  destruct (Re.group 1 m) as [g|]; [|discriminate].
  intros H. injection H as <-. apply normalised_string.
Qed.

Lemma label_of_raises (v : string) (e : exn) :
  Labels.label_of v = Raise e -> e <> UserWarning.
Proof.
  unfold Labels.label_of.
  destruct (Re.search Labels.label_pattern v) as [m|];
    [destruct (Re.group 1 m)|]; intros H; try discriminate;
    injection H as <-; discriminate.
Qed.

Lemma comprehension_ret (values ls : list string) :
  Labels.comprehension values = Ret ls ->
  Forall2 (fun v l => Labels.label_of v = Ret l) values ls.
Proof.
  revert ls. induction values as [|v values IH]; intros ls H; cbn in H.
  - injection H as <-. constructor.
  - destruct (Labels.label_of v) as [l|e] eqn:El; [|discriminate].
    cbn [rbind] in H.
    destruct (Labels.comprehension values) as [ls'|e]; [|discriminate].
    cbn [rbind] in H. injection H as <-. constructor; auto.
Qed.

Lemma comprehension_raises (values : list string) (e : exn) :
  Labels.comprehension values = Raise e -> e <> UserWarning.
Proof.
  induction values as [|v values IH]; cbn; [discriminate|].
  destruct (Labels.label_of v) as [l|e'] eqn:El; cbn [rbind].
  - destruct (Labels.comprehension values) as [ls'|e'']; cbn [rbind];
      [discriminate|].
    intros H. injection H as <-. now apply IH.
  - intros H. injection H as <-. now apply (label_of_raises v).
Qed.

(** X10.  [get_current_labels] raises UserWarning exactly when no
    paragraph passes the first pattern; it never returns an empty
    list. *)
Theorem user_warning_iff_no_paragraph (body : page) :
  (get_current_labels body = Raise UserWarning
   <-> Labels.tag_strings body = [])
  /\ get_current_labels body <> Ret [].
Proof.
  unfold get_current_labels. split; [split|].
  - destruct (Labels.comprehension (Labels.tag_strings body)) as [ls|e] eqn:E;
      cbn [rbind].
    + destruct ls; [|discriminate]. intros _.
      apply comprehension_ret in E. now inversion E.
    + intros H. injection H as ->.
      now apply comprehension_raises in E.
  - intros ->. reflexivity.
  - destruct (Labels.comprehension (Labels.tag_strings body)) as [[|l ls]|e];
      discriminate.
Qed.

Lemma user_warning_iff_no_paragraph_witness :
  get_current_labels Sample.body_none = Raise UserWarning.
Proof.
  apply (proj1 (user_warning_iff_no_paragraph Sample.body_none)).
  vm_compute. reflexivity.
Defined.

(** X11.  When [get_current_labels] returns, it returns one label per
    paragraph that passed the first pattern, in page order, each the
    normalisation of that paragraph, and no label holds a space, a
    hyphen or a capital A-Z. *)
Theorem current_labels_normalised (body : page) (ls : list string) :
  get_current_labels body = Ret ls ->
  ls <> []
  /\ Forall2 (fun v l => Labels.label_of v = Ret l) (Labels.tag_strings body) ls
  /\ Forall (fun l => Shape.all_chars label_char_ok l = true) ls.
Proof.
  unfold get_current_labels.
  destruct (Labels.comprehension (Labels.tag_strings body)) as [ls'|e] eqn:E;
    [|discriminate].
  cbn [rbind]. destruct ls' as [|l ls']; [discriminate|].
  intros H. injection H as <-. apply comprehension_ret in E.
  split; [discriminate|]. split; [exact E|].
  clear - E. induction E as [|v1 l1 vs1 ls1 Hl _ IH]; constructor; auto.
  now apply (label_of_normalised v1).
Qed.

Lemma current_labels_normalised_witness :
  Forall (fun l => Shape.all_chars label_char_ok l = true) Sample.catalog.
Proof.
  apply (current_labels_normalised Sample.body_ok Sample.catalog).
  vm_compute. reflexivity.
Defined.

(* ================================================================= *)
(** ** The requests of add_label *)

Lemma answers_step (srv : Server) (from n : nat) :
  answers srv from (S n) = label_status srv from :: answers srv (S from) n.
Proof. reflexivity. Qed.

Lemma failures_cons (s : nat) (rest : list nat) :
  failures (s :: rest) = (if s =? 500 then 1 else 0) + failures rest.
Proof. unfold failures. cbn. now destruct (s =? 500). Qed.

(** The while loop, iteration by iteration: [k] iterations were run,
    the trace gained a pause and a write for each, and the loop is left
    exactly when the retry counter reaches 3. *)
Lemma retry_loop_trace (srv : Server) (aid : string) (body : list string)
      (fuel : nat) :
  forall retry resp w,
    retry <= 3 ->
    exists k,
      let sts := answers srv (labels_posted (trace w)) k in
      snd (retry_loop fuel srv aid body retry resp w)
      = mkworld (self_ w)
          (trace w ++ flat_map (fun s => [Sleep 3; Label aid body s]) sts)
      /\ k <= fuel
      /\ retry + failures sts <= 3
      /\ match fst (retry_loop fuel srv aid body retry resp w) with
         | Returns r =>
             retry + failures sts = 3
             /\ (k = 0 -> r = resp) /\ (0 < k -> r = 500)
         | Raises _ => False
         | Spins => k = fuel /\ retry + failures sts < 3
         end.
Proof.
  induction fuel as [|fuel IH]; intros retry resp w Hle.
  - exists 0. cbn zeta. cbn [answers seq map flat_map]. rewrite app_nil_r.
    destruct w as [s t]. cbn [retry_loop].
    destruct (retry <? 3) eqn:E; unfold failures, spin, ret;
      cbn [filter List.length fst snd self_ trace].
    + apply Nat.ltb_lt in E. repeat split; lia.
    + apply Nat.ltb_ge in E. repeat split; try lia; intros; lia.
  - destruct (Nat.lt_ge_cases retry 3) as [Hlt|Hge].
    + rewrite retry_loop_step by exact Hlt. cbn zeta.
      set (st := label_status srv (labels_posted (trace w))).
      set (w1 := mkworld (self_ w) (trace w ++ [Sleep 3; Label aid body st])).
      set (retry1 := if st =? 500 then retry + 1 else retry).
      assert (Hle1 : retry1 <= 3) by (unfold retry1; destruct (st =? 500); lia).
      assert (Hn : labels_posted (trace w1) = S (labels_posted (trace w))).
      { unfold w1. cbn [trace]. rewrite labels_posted_app. cbn. lia. }
      destruct (IH retry1 st w1 Hle1) as [k [Hw [Hk [Hf Hr]]]].
      cbn zeta in *. rewrite Hn in *.
      exists (S k). rewrite answers_step, failures_cons. fold st.
      cbn [flat_map]. split; [|split; [lia|split]].
      * rewrite Hw. unfold w1. cbn [self_ trace].
        now rewrite <- app_assoc.
      * unfold retry1 in Hf. destruct (st =? 500); lia.
      * destruct (fst (retry_loop fuel srv aid body retry1 st w1)) as [r| |].
        -- destruct Hr as [Hsum [H0 Hpos]]. split; [|split].
           ++ unfold retry1 in Hsum. destruct (st =? 500); lia.
           ++ intros; lia.
           ++ intros _. destruct k as [|k]; [|apply Hpos; lia].
              rewrite (H0 eq_refl). unfold failures in Hsum. cbn in Hsum.
              unfold retry1 in Hsum. destruct (st =? 500) eqn:E; [|lia].
              now apply Nat.eqb_eq in E.
        -- exact Hr.
        -- destruct Hr as [-> Hsum]. split; [reflexivity|].
           unfold retry1 in Hsum. destruct (st =? 500); lia.
    + assert (retry = 3) as -> by lia.
      rewrite retry_loop_done by lia.
      exists 0. cbn zeta. cbn [answers seq map flat_map fst snd].
      rewrite app_nil_r. destruct w as [s t]. unfold failures.
      cbn [filter List.length fst snd self_ trace].
      repeat split; try lia; intros; lia.
Qed.

(** X12.  One call of add_label sends the first write and then a pause
    of three seconds and a write per retry, all with the same id and
    labels; the retries never include more than three answers of 500
    (four with the first write); when the call returns, either the first
    answer was not a 500 and it was the only request, or four answers
    were 500 and the result is False. *)
Theorem add_label_requests
        (fuel : nat) (srv : Server) (aid : string) (body : list string)
        (w : World) :
  exists k,
    let first := label_status srv (labels_posted (trace w)) in
    let sts := answers srv (labels_posted (trace w)) (S k) in
    snd (add_label fuel srv aid body w)
    = mkworld (self_ w) (trace w ++ attempts aid body sts)
    /\ k <= fuel
    /\ failures sts <= 4
    /\ match fst (add_label fuel srv aid body w) with
       | Returns b =>
           (first <> 500 /\ k = 0 /\ b = (first =? 200))
           \/ (first = 500 /\ failures sts = 4 /\ b = false)
       | Raises _ => False
       | Spins => first = 500 /\ k = fuel /\ failures sts < 4
       end.
Proof.
  cbn zeta. unfold add_label, bind, post_label.
  set (s0 := label_status srv (labels_posted (trace w))).
  set (w1 := mkworld (self_ w) (trace w ++ [Label aid body s0])).
  assert (Hn : labels_posted (trace w1) = S (labels_posted (trace w))).
  { unfold w1. cbn [trace]. rewrite labels_posted_app. cbn. lia. }
  destruct (s0 =? 500) eqn:E500.
  - apply Nat.eqb_eq in E500.
    destruct (retry_loop_trace srv aid body fuel 0 s0 w1 (Nat.le_0_l 3))
      as [k [Hw [Hk [Hf Hr]]]].
    cbn zeta in *. rewrite Hn in *. exists k.
    rewrite answers_step, failures_cons. fold s0.
    rewrite E500 in *. change (500 =? 500) with true. cbn iota.
    unfold attempts.
    destruct (retry_loop fuel srv aid body 0 500 w1) as [[r| |] w2];
      cbn [fst snd] in *; subst w2.
    + destruct Hr as [Hsum [_ Hpos]].
      assert (Hk0 : 0 < k).
      { destruct k; [|lia]. unfold failures in Hsum. cbn in Hsum. lia. }
      rewrite (Hpos Hk0). change (500 =? 200) with false.
      unfold ret. cbn [fst snd]. split; [|split; [lia|split; [lia|]]].
      * unfold w1. cbn [self_ trace]. rewrite <- app_assoc, E500. reflexivity.
      * right. repeat split. lia.
    + contradiction.
    + split; [|split; [lia|split; [lia|]]].
      * unfold w1. cbn [self_ trace]. rewrite <- app_assoc, E500. reflexivity.
      * destruct Hr as [-> Hsum]. repeat split. lia.
  - exists 0. rewrite answers_step, failures_cons. fold s0. rewrite E500.
    unfold ret. cbn beta iota. cbn [answers seq map attempts flat_map].
    unfold failures. cbn [filter List.length].
    apply Nat.eqb_neq in E500.
    destruct (s0 =? 200) eqn:E200; cbn [fst snd];
      (split; [reflexivity|split; [lia|split; [lia|]]]);
      left; repeat split; auto.
Qed.

(** X13.  The first answer settles the result of add_label: any answer
    but 500 ends the call after that single request, with True for 200
    and False otherwise (a 502 or 503 is not retried); after a 500 the
    call never returns True, whatever the retries are answered. *)
Theorem add_label_first_answer
        (fuel : nat) (srv : Server) (aid : string) (body : list string)
        (w : World) :
  let first := label_status srv (labels_posted (trace w)) in
  (first <> 500 ->
   add_label fuel srv aid body w
   = (Returns (first =? 200),
      mkworld (self_ w) (trace w ++ [Label aid body first])))
  /\ (first = 500 -> fst (add_label fuel srv aid body w) <> Returns true).
Proof.
  cbn zeta. split.
  - intros Hne. unfold add_label, bind, post_label.
    apply Nat.eqb_neq in Hne. rewrite Hne. unfold ret. cbn beta iota.
    now destruct (_ =? 200).
  - intros H500.
    destruct (add_label_spec fuel srv aid body w) as [evs [_ [_ [_ Hres]]]].
    destruct (fst (add_label fuel srv aid body w)) as [b| |]; try discriminate.
    destruct Hres as [s [_ [_ Hfalse]]]. now rewrite (Hfalse H500).
Qed.

Lemma add_label_first_answer_witness :
  fst (exec (add_label 3 Sample.hiccup "att10" ["e444"]) Sample.empty_page)
  <> Returns true.
Proof.
  apply (proj2 (add_label_first_answer 3 Sample.hiccup "att10" ["e444"]
                  (mkworld Sample.empty_page []))).
  reflexivity.
Defined.

Lemma retry_loop_ends (srv : Server) (aid : string) (body : list string)
      (n : nat) :
  forall fuel retry resp w,
    retry <= 3 ->
    3 <= retry + failures (answers srv (labels_posted (trace w)) n) ->
    n <= fuel ->
    fst (retry_loop fuel srv aid body retry resp w) <> Spins.
Proof.
  induction n as [|n IH]; intros fuel retry resp w Hle Hf Hfuel.
  - unfold failures in Hf. cbn in Hf.
    rewrite retry_loop_done by lia. discriminate.
  - destruct (Nat.lt_ge_cases retry 3) as [Hlt|Hge];
      [|rewrite retry_loop_done by lia; discriminate].
    destruct fuel as [|fuel]; [lia|].
    rewrite retry_loop_step by exact Hlt. cbn zeta.
    rewrite answers_step, failures_cons in Hf.
    set (st := label_status srv (labels_posted (trace w))) in *.
    apply IH; [destruct (st =? 500); lia | | lia].
    cbn [trace]. rewrite labels_posted_app. cbn [labels_posted filter is_label List.length].
    replace (labels_posted (trace w) + 1) with (S (labels_posted (trace w))) by lia.
    destruct (st =? 500); lia.
Qed.

(** X14.  After a first answer of 500 the call of add_label ends as
    soon as three of the retries have been answered with 500: if that
    happens within the first [n] retries, following [n] iterations is
    enough to see it return (False). *)
Theorem add_label_ends_after_three_failed_retries
        (fuel n : nat) (srv : Server) (aid : string) (body : list string)
        (w : World) :
  label_status srv (labels_posted (trace w)) = 500 ->
  3 <= failures (answers srv (S (labels_posted (trace w))) n) ->
  n <= fuel ->
  fst (add_label fuel srv aid body w) = Returns false.
Proof.
  intros H500 Hf Hfuel.
  destruct (add_label_spec fuel srv aid body w) as [evs [_ [_ [_ Hres]]]].
  assert (Hns : fst (add_label fuel srv aid body w) <> Spins).
  { unfold add_label, bind, post_label. rewrite H500.
    change (500 =? 500) with true. cbn iota.
    set (w1 := mkworld (self_ w) (trace w ++ [Label aid body 500])).
    pose proof (retry_loop_ends srv aid body n fuel 0 500 w1 (Nat.le_0_l 3)) as H.
    assert (Hn : labels_posted (trace w1) = S (labels_posted (trace w))).
    { unfold w1. cbn [trace]. rewrite labels_posted_app. cbn. lia. }
    rewrite Hn in H. specialize (H Hf Hfuel).
    destruct (retry_loop fuel srv aid body 0 500 w1) as [[r| |] w2];
      cbn [fst] in *; [destruct (r =? 200)| |]; try discriminate.
    contradiction. }
  destruct (fst (add_label fuel srv aid body w)) as [b| |];
    try contradiction.
  destruct Hres as [s [_ [_ Hfalse]]]. now rewrite (Hfalse H500).
Qed.

Lemma add_label_ends_after_three_failed_retries_witness :
  fst (exec (add_label 3 Sample.failing "att10" ["e444"]) Sample.empty_page)
  = Returns false.
Proof.
  apply (add_label_ends_after_three_failed_retries 3 3 Sample.failing
           "att10" ["e444"] (mkworld Sample.empty_page []));
    [reflexivity | vm_compute; lia | lia].
Defined.

(* ================================================================= *)
(** ** What a promotion sends *)

Lemma parsed_of_inv (fn : string) (d : parsed) :
  parsed_of fn = Ret d -> parse_testfile_name fn = Ret (Some d).
Proof.
  unfold parsed_of. destruct (parse_testfile_name fn) as [[d'|]|e];
    cbn [rbind]; congruence.
Qed.

(** X15.  A promotion of a name that parse does not return an
    identifier for raises before anything is sent: TypeError when parse
    answers None, the exception of parse otherwise; the trace stays
    empty. *)
Theorem promotion_of_unparsed_name_sends_nothing
        (fuel : nat) (srv : Server) (self : Confluence) (fn : string)
        (e : exn) :
  parsed_of fn = Raise e ->
  exec (send_and_label_attachment fuel srv fn) self
  = (Raises e, mkworld self []).
Proof.
  intros H. rewrite send_and_label_cases.
  unfold get_attachment_predecessor. now rewrite H.
Qed.

Lemma promotion_of_unparsed_name_sends_nothing_witness :
  exec (send_and_label_attachment 3 Sample.healthy Sample.random_report)
       Sample.with_older
  = (Raises TypeError, mkworld Sample.with_older []).
Proof.
  apply promotion_of_unparsed_name_sends_nothing.
  vm_compute. reflexivity.
Defined.

Lemma In_attempts (aid : string) (body : list string) (sts : list nat)
      (e : event) :
  In e (attempts aid body sts) ->
  e = Sleep 3 \/ exists s, e = Label aid body s.
Proof.
  unfold attempts. destruct sts as [|s0 rest]; [intros []|].
  intros [<-|H]; [right; eauto|].
  apply in_flat_map in H as [s [_ [<-|[<-|[]]]]]; [now left | right; eauto].
Qed.

Lemma first_label_In (cond : string -> bool) (ls : list string) (l : string) :
  first_label cond ls = Ret l -> In l ls /\ cond l = true.
Proof.
  unfold first_label. destruct (filter cond ls) as [|x r] eqn:E; [discriminate|].
  intros H. injection H as <-. apply filter_In. rewrite E. now left.
Qed.

Lemma main_label_In (self : Confluence) (d : parsed) (l : string) :
  main_label_of self d = Ret l ->
  In l (current_labels self) /\ has_star l = truthy (star d).
Proof.
  unfold main_label_of. destruct (truthy (star d)); intros H;
    apply first_label_In in H as [Hin Hc]; split; auto.
  now apply negb_true_iff.
Qed.

Ltac quiet_trace :=
  split; intros;
  match goal with
  | H : In _ _ |- _ => cbn in H; intuition discriminate
  end.

(** X16.  Every label write of a promotion goes to the id the upload
    returned and carries exactly three labels: a label of the catalogue
    that has "star" in it exactly when the file has a variant, the
    lower-cased module of the file name, and latest.  Every label
    removal takes [latest] from the attachment that
    [search_attachment_by_name] finds for the resolved predecessor. *)
Theorem promotion_requests
        (fuel : nat) (srv : Server) (self : Confluence) (fn : string) :
  let tr := trace (snd (exec (send_and_label_attachment fuel srv fn) self)) in
  (forall aid body status,
      In (Label aid body status) tr ->
      exists d main,
        parse_testfile_name fn = Ret (Some d)
        /\ upload srv = Ret (Some aid)
        /\ In main (current_labels self)
        /\ has_star main = truthy (star d)
        /\ body = [main; Str.lower (module d); "latest"])
  /\ (forall i l,
         In (Unlabel i l) tr ->
         l = "latest"
         /\ exists p a,
              get_attachment_predecessor self fn = Ret p
              /\ search_attachment_by_name self p = Some a
              /\ title a = p /\ i = id a).
Proof.
  cbv zeta. rewrite send_and_label_cases.
  destruct (get_attachment_predecessor self fn) as [p|e] eqn:Hp;
    [|quiet_trace].
  destruct (upload srv) as [[[|c rest]|]|e] eqn:Hu; try quiet_trace.
  destruct (parsed_of fn) as [d|e] eqn:Hd; [|quiet_trace].
  destruct (main_label_of self d) as [main|e] eqn:Hm; [|quiet_trace].
  set (body0 := [main; Str.lower (module d); "latest"]).
  destruct (add_label_requests fuel srv (String c rest) body0
              (mkworld self (sent fn))) as [k [Hw _]].
  cbn zeta in Hw. cbn [self_ trace] in Hw.
  set (sts := answers srv (labels_posted (sent fn)) (S k)) in Hw.
  assert (Hlabel : forall aid body status (extra : list event),
             (forall e, In e extra -> is_label e = false) ->
             In (Label aid body status)
                ((sent fn ++ attempts (String c rest) body0 sts) ++ extra) ->
             exists d0 main0,
               parse_testfile_name fn = Ret (Some d0)
               /\ Ret (Some (String c rest)) = Ret (Some aid)
               /\ In main0 (current_labels self)
               /\ has_star main0 = truthy (star d0)
               /\ body = [main0; Str.lower (module d0); "latest"]).
  { intros aid body status extra Hextra Hin.
    apply in_app_or in Hin as [Hin|Hin];
      [|specialize (Hextra _ Hin); discriminate].
    apply in_app_or in Hin as [[H|[H|[]]]|Hin]; try discriminate H.
    apply In_attempts in Hin as [H|[s H]]; [discriminate H|].
    injection H as -> -> _.
    pose proof (parsed_of_inv fn d Hd) as Hparse.
    destruct (main_label_In self d main Hm) as [Hin Hs].
    exists d, main. repeat split; auto. }
  assert (Hnone : forall i l,
             ~ In (Unlabel i l) (sent fn ++ attempts (String c rest) body0 sts)).
  { intros i l Hin. apply in_app_or in Hin as [[H|[H|[]]]|Hin];
      try discriminate H.
    apply In_attempts in Hin as [H|[s H]]; discriminate H. }
  destruct (add_label fuel srv (String c rest) body0 (mkworld self (sent fn)))
    as [[b| |] w]; cbn [snd] in Hw; subst w.
  - destruct (b && negb (is_empty p)) eqn:Hgo.
    + destruct (search_attachment_by_name self p) as [a|] eqn:Ha;
        cbn [snd trace self_].
      * split.
        -- intros aid body status Hin.
           apply (Hlabel aid body status _) in Hin; [exact Hin|].
           intros e [<-|[<-|[]]]; reflexivity.
        -- intros i l Hin. apply in_app_or in Hin as [Hin|Hin];
             [now apply Hnone in Hin|].
           destruct Hin as [H|[H|[]]]; [discriminate H|].
           injection H as <- <-. split; [reflexivity|].
           exists p, a. repeat split; auto.
           unfold search_attachment_by_name in Ha.
           destruct (filter (fun attachment => String.eqb p (title attachment))
                            (attachments self)) as [|x r] eqn:E;
             [discriminate|].
           injection Ha as ->.
           assert (Hx : In a (filter (fun attachment =>
                                        String.eqb p (title attachment))
                                     (attachments self)))
             by (rewrite E; now left).
           apply filter_In in Hx as [_ Hx]. apply String.eqb_eq in Hx.
           now symmetry.
      * split.
        -- intros aid body status Hin.
           apply (Hlabel aid body status _) in Hin; [exact Hin|].
           intros e [<-|[]]; reflexivity.
        -- intros i l Hin. apply in_app_or in Hin as [Hin|Hin];
             [now apply Hnone in Hin|].
           destruct Hin as [H|[]]. discriminate H.
    + cbn [snd trace]. split.
      * intros aid body status Hin.
        apply (Hlabel aid body status []); [intros ? []|].
        now rewrite app_nil_r.
      * intros i l Hin. now apply Hnone in Hin.
  - cbn [snd trace]. split.
    + intros aid body status Hin.
      apply (Hlabel aid body status []); [intros ? []|].
      now rewrite app_nil_r.
    + intros i l Hin. now apply Hnone in Hin.
  - cbn [snd trace]. split.
    + intros aid body status Hin.
      apply (Hlabel aid body status []); [intros ? []|].
      now rewrite app_nil_r.
    + intros i l Hin. now apply Hnone in Hin.
Qed.

Lemma promotion_requests_witness :
  exists p a,
    get_attachment_predecessor Sample.with_older Sample.candidate = Ret p
    /\ search_attachment_by_name Sample.with_older p = Some a
    /\ title a = p /\ "att7" = id a.
Proof.
  apply (proj2 (promotion_requests 3 Sample.healthy Sample.with_older
                  Sample.candidate) "att7" "latest").
  vm_compute. do 4 right. left. reflexivity.
Defined.

(* ================================================================= *)
(** ** The pagination of get_attachments *)

Lemma lstrip_all_in (chars pre s : string) :
  Shape.all_chars (fun c => char_in c chars) pre = true ->
  lstrip chars (pre ++ s) = lstrip chars s.
Proof.
  induction pre as [|c pre IH]; [reflexivity|]. cbn.
  intros H. apply andb_true_iff in H as [Hc Hpre]. rewrite Hc. now apply IH.
Qed.

Lemma lstrip_stops (chars s : string) :
  match lstrip chars s with
  | EmptyString => True
  | String c _ => char_in c chars = false
  end.
Proof.
  induction s as [|c s IH]; [exact I|]. cbn.
  destruct (char_in c chars) eqn:E; [exact IH | exact E].
Qed.

(** X17.  The endpoint of the next page is the next link with its
    leading characters out of "/rest/api/" dropped, as a set of
    characters: after the prefix /rest/api/ itself the stripping goes
    on through every further r, e, s, t, a, p, i and slash.  The prefix
    alone is removed exactly when the path after it is empty or starts
    with another character, as the paths content/... do. *)
Theorem next_endpoint_strips_character_set (path : string) :
  lstrip "/rest/api/" ("/rest/api/" ++ path) = lstrip "/rest/api/" path
  /\ (lstrip "/rest/api/" ("/rest/api/" ++ path) = path
      <-> match path with
          | EmptyString => True
          | String c _ => char_in c "/rest/api/" = false
          end)
  /\ lstrip "/rest/api/" ("/rest/api/content/" ++ path)
     = ("content/" ++ path)%string.
Proof.
  assert (E : lstrip "/rest/api/" ("/rest/api/" ++ path)
              = lstrip "/rest/api/" path)
    by (apply (lstrip_all_in "/rest/api/" "/rest/api/"); reflexivity).
  split; [exact E|]. split; [|reflexivity].
  rewrite E. split.
  - intros H. pose proof (lstrip_stops "/rest/api/" path) as Hs.
    now rewrite H in Hs.
  - destruct path as [|c path]; [reflexivity|].
    cbn [lstrip]. now intros ->.
Qed.

Lemma next_endpoint_strips_character_set_witness :
  lstrip "/rest/api/" "/rest/api/space/DOC" = "ce/DOC".
Proof.
  exact (proj1 (next_endpoint_strips_character_set "space/DOC")).
Defined.

Lemma pagination_chain (get : string -> Listing) (next_url : option string)
      (pages : list (list Attachment)) :
  chain get next_url pages ->
  forall fuel acc,
    List.length pages <= fuel ->
    pagination fuel get acc next_url = Some (acc ++ concat pages).
Proof.
  induction 1 as [next_url Hend|c u pages Hc IH]; intros fuel acc Hfuel.
  - destruct fuel; cbn [pagination]; rewrite Hend; cbn; now rewrite app_nil_r.
  - destruct fuel as [|fuel]; [cbn in Hfuel; lia|].
    cbn [pagination truthy]. cbv zeta.
    rewrite IH by (cbn in Hfuel; lia).
    cbn [concat]. now rewrite app_assoc.
Qed.

(** X18.  [get_attachments] returns the results of the first page
    followed by those of every page reached through the next links, in
    order, as soon as enough iterations are followed; with no next link
    on the first page it returns that page's results; and when every
    page names a next page the loop never ends. *)
Theorem get_attachments_concatenates
        (get : string -> Listing) (page_id : string) :
  let first := get ("content/" ++ page_id ++ "/child/attachment")%string in
  (forall pages fuel,
      chain get (next first) pages ->
      List.length pages <= fuel ->
      get_attachments fuel get page_id = Some (results first ++ concat pages))
  /\ (truthy (next first) = false ->
      forall fuel, get_attachments fuel get page_id = Some (results first))
  /\ ((forall endpoint, truthy (next (get endpoint)) = true) ->
      forall fuel, get_attachments fuel get page_id = None).
Proof.
  cbv zeta. unfold get_attachments. split; [|split].
  - intros pages fuel Hc Hfuel. now apply pagination_chain.
  - intros Hend fuel. destruct fuel; cbn [pagination]; now rewrite Hend.
  - intros Hall fuel.
    generalize (results (get ("content/" ++ page_id ++ "/child/attachment")%string)).
    generalize ("content/" ++ page_id ++ "/child/attachment")%string.
    induction fuel as [|fuel IH]; intros endpoint acc;
      cbn [pagination]; rewrite Hall.
    + reflexivity.
    + destruct (next (get endpoint)) as [u|] eqn:E;
        [|specialize (Hall endpoint); rewrite E in Hall; discriminate].
      cbv zeta. apply IH.
Qed.

Lemma get_attachments_concatenates_witness :
  get_attachments 1
    (fun endpoint =>
       if String.eqb endpoint "content/7/child/attachment"
       then mklisting [Sample.older_att]
                      (Some "/rest/api/content/7/child/attachment?start=1")
       else mklisting [Sample.same_day_att] None)
    "7"
  = Some [Sample.older_att; Sample.same_day_att].
Proof.
  set (get := fun endpoint =>
                if String.eqb endpoint "content/7/child/attachment"
                then mklisting [Sample.older_att]
                       (Some "/rest/api/content/7/child/attachment?start=1")
                else mklisting [Sample.same_day_att] None).
  change (get_attachments 1 get "7"
          = Some (results (get ("content/" ++ "7" ++ "/child/attachment")%string)
                    ++ concat [[Sample.same_day_att]])).
  apply (proj1 (get_attachments_concatenates get "7") [[Sample.same_day_att]] 1).
  - apply (chain_next get "/" "rest/api/content/7/child/attachment?start=1" []).
    apply chain_end. reflexivity.
  - cbn. lia.
Defined.

(* ================================================================= *)
(** ** The loop of main.py *)

Lemma grows_ret {A} (a : A) : grows (ret a).
Proof. intros w. exists []. rewrite app_nil_r. now destruct w. Qed.

Lemma grows_spin {A} : grows (@spin A).
Proof. intros w. exists []. rewrite app_nil_r. now destruct w. Qed.

Lemma grows_lift {A} (r : result A) : grows (lift r).
Proof.
  intros w. exists []. rewrite app_nil_r. unfold lift.
  destruct r; now destruct w.
Qed.

Lemma grows_emit (e : event) : grows (emit e).
Proof. intros w. now exists [e]. Qed.

Lemma grows_get_self : grows get_self.
Proof. intros w. exists []. rewrite app_nil_r. now destruct w. Qed.

Lemma grows_bind {A B} (m : M A) (f : A -> M B) :
  grows m -> (forall a, grows (f a)) -> grows (bind m f).
Proof.
  intros Hm Hf w. unfold bind. destruct (Hm w) as [evs Hw].
  destruct (m w) as [[a| |] w1]; cbn [snd] in Hw; subst w1.
  - destruct (Hf a (mkworld (self_ w) (trace w ++ evs))) as [evs' Hw'].
    exists (evs ++ evs'). rewrite Hw'. cbn [self_ trace].
    now rewrite app_assoc.
  - now exists evs.
  - now exists evs.
Qed.

Lemma grows_post_label srv aid body : grows (post_label srv aid body).
Proof. intros w. now eexists. Qed.

Lemma grows_retry_loop fuel srv aid body :
  forall retry resp, grows (retry_loop fuel srv aid body retry resp).
Proof.
  induction fuel as [|fuel IH]; intros retry resp; cbn [retry_loop];
    destruct (retry <? 3); try apply grows_spin; try apply grows_ret.
  apply grows_bind; [apply grows_emit|]. intros _.
  apply grows_bind; [apply grows_post_label|]. intros s. apply IH.
Qed.

Lemma grows_add_label fuel srv aid body : grows (add_label fuel srv aid body).
Proof.
  unfold add_label.
  apply grows_bind; [apply grows_post_label|]. intros s.
  apply grows_bind.
  - destruct (s =? 500); [apply grows_retry_loop | apply grows_ret].
  - intros r. destruct (r =? 200); apply grows_ret.
Qed.

Lemma grows_send_and_label fuel srv fn :
  grows (send_and_label_attachment fuel srv fn).
Proof.
  unfold send_and_label_attachment, add_page_attachment, remove_label.
  apply grows_bind; [apply grows_get_self|]. intros self.
  apply grows_bind; [apply grows_lift|]. intros p.
  apply grows_bind.
  { apply grows_bind; [apply grows_emit|]. intros _.
    apply grows_bind; [apply grows_emit|]. intros _. apply grows_lift. }
  intros [[|c rest]|]; try apply grows_emit.
  apply grows_bind; [apply grows_lift|]. intros d.
  apply grows_bind; [apply grows_lift|]. intros main.
  apply grows_bind; [apply grows_add_label|]. intros b.
  destruct (b && negb (is_empty p)); [|apply grows_ret].
  apply grows_bind; [apply grows_emit|]. intros _.
  apply grows_bind; [apply grows_lift|]. intros i. apply grows_emit.
Qed.

Lemma grows_process fuel srv download a : grows (process fuel srv download a).
Proof.
  unfold process.
  apply grows_bind; [apply grows_emit|]. intros _.
  apply grows_bind; [apply grows_get_self|]. intros self.
  apply grows_bind; [apply grows_lift|]. intros v.
  apply grows_bind; [apply grows_emit|]. intros _.
  apply grows_bind; [|intros _; apply grows_emit].
  destruct (snd v); [|apply grows_emit].
  apply grows_bind; [apply grows_lift|]. intros _. apply grows_send_and_label.
Qed.

Lemma grows_main_loop fuel srv download candidates :
  grows (main_loop fuel srv download candidates).
Proof.
  induction candidates as [|a rest IH]; cbn [main_loop]; [apply grows_ret|].
  apply grows_bind; [apply grows_process|]. intros _. exact IH.
Qed.

Lemma main_loop_app fuel srv download (l1 l2 : list JiraAttachment) (w : World) :
  main_loop fuel srv download (l1 ++ l2) w
  = match main_loop fuel srv download l1 w with
    | (Returns _, w1) => main_loop fuel srv download l2 w1
    | (Raises e, w1) => (Raises e, w1)
    | (Spins, w1) => (Spins, w1)
    end.
Proof.
  revert w. induction l1 as [|a l1 IH]; intros w; [reflexivity|].
  cbn [app main_loop]. unfold bind.
  destruct (process fuel srv download a w) as [[[]| |] w1]; auto.
Qed.

(** X19.  An exception of the eligibility decision ends the whole run:
    when the candidates before it were processed without exception and
    the decision raises on a candidate, the run raises that exception
    right after printing the "Processing" line of that candidate, and
    none of the later candidates is looked at. *)
Theorem run_stops_at_first_exception
        (fuel : nat) (srv : string -> Server)
        (download : string -> string -> result unit)
        (before after : list JiraAttachment) (a : JiraAttachment)
        (w : World) (e : exn) :
  fst (main_loop fuel srv download before w) = Returns tt ->
  file_eligible_for_upload (self_ w) (file_name a) = Raise e ->
  main_loop fuel srv download (before ++ a :: after) w
  = (Raises e,
     mkworld (self_ w)
             (trace (snd (main_loop fuel srv download before w))
                ++ [Print ("Processing " ++ file_name a)])).
Proof.
  intros Hret Hraise. rewrite main_loop_app.
  destruct (grows_main_loop fuel srv download before w) as [evs Hw].
  destruct (main_loop fuel srv download before w) as [[[]| |] w1];
    cbn [fst snd] in *; try discriminate. subst w1.
  cbn [main_loop trace]. unfold bind at 1. unfold process.
  unfold bind at 1. unfold emit at 1. cbn [self_ trace].
  unfold bind at 1. unfold get_self at 1. cbn [self_].
  unfold bind at 1. rewrite Hraise. reflexivity.
Qed.

Lemma run_stops_at_first_exception_witness :
  fst (main_loop 3 (fun _ => Sample.healthy) (fun _ _ => Ret tt)
         ([mkjira Sample.random_report "u1"]
            ++ mkjira Sample.february_30 "u2"
            :: [mkjira Sample.candidate "u3"])
         (mkworld Sample.empty_page []))
  = Raises ValueError.
Proof.
  rewrite (run_stops_at_first_exception 3 (fun _ => Sample.healthy)
             (fun _ _ => Ret tt) [mkjira Sample.random_report "u1"]
             [mkjira Sample.candidate "u3"] (mkjira Sample.february_30 "u2")
             (mkworld Sample.empty_page []) ValueError).
  - reflexivity.
  - vm_compute. reflexivity.
  - vm_compute. reflexivity.
Defined.

Lemma requests_app (tr1 tr2 : list event) :
  requests (tr1 ++ tr2) = requests tr1 ++ requests tr2.
Proof. apply filter_app. Qed.

(** X20.  A run in which every candidate is rejected returns normally
    and issues no upload, label write or label removal, whatever the
    download would do: for a rejected candidate nothing is downloaded
    and nothing is sent. *)
Theorem rejected_candidates_send_nothing
        (fuel : nat) (srv : string -> Server)
        (download : string -> string -> result unit)
        (candidates : list JiraAttachment) (w : World) :
  (forall a, In a candidates ->
     exists line,
       file_eligible_for_upload (self_ w) (file_name a) = Ret (line, false)) ->
  fst (main_loop fuel srv download candidates w) = Returns tt
  /\ requests (trace (snd (main_loop fuel srv download candidates w)))
     = requests (trace w)
  /\ self_ (snd (main_loop fuel srv download candidates w)) = self_ w.
Proof.
  revert w. induction candidates as [|a rest IH]; intros w Hall.
  - repeat split.
  - destruct (Hall a (or_introl eq_refl)) as [line Hline].
    assert (E : main_loop fuel srv download (a :: rest) w
                = main_loop fuel srv download rest
                    (mkworld (self_ w)
                       (trace w ++ [Print ("Processing " ++ file_name a);
                                    Print line;
                                    Print "will not be uploaded";
                                    Print stars]))).
    { cbn [main_loop]. unfold process, bind, emit, get_self.
      cbn [self_ trace]. rewrite Hline. unfold lift.
      cbn [fst snd self_ trace]. now rewrite <- !app_assoc. }
    rewrite E.
    match goal with
    | |- context [main_loop fuel srv download rest ?w1] =>
        destruct (IH w1) as [Hret [Hreq Hself]];
        [intros b Hb; exact (Hall b (or_intror Hb))|]
    end.
    split; [exact Hret|]. split; [|exact Hself].
    rewrite Hreq. cbn [trace]. rewrite requests_app. cbn.
    now rewrite app_nil_r.
Qed.

Lemma rejected_candidates_send_nothing_witness :
  requests (trace (snd (main_loop 3 (fun _ => Sample.healthy)
                          (fun _ _ => Raise TypeError)
                          [mkjira Sample.random_report "u1";
                           mkjira Sample.early "u2"]
                          (mkworld Sample.with_older []))))
  = [].
Proof.
  apply (rejected_candidates_send_nothing 3 (fun _ => Sample.healthy)
           (fun _ _ => Raise TypeError)
           [mkjira Sample.random_report "u1"; mkjira Sample.early "u2"]
           (mkworld Sample.with_older [])).
  intros a [<-|[<-|[]]]; eexists; vm_compute; reflexivity.
Defined.

(* ================================================================= *)
(** ** The order of the requests of a promotion *)

Lemma requests_attempts (aid : string) (body : list string) (sts : list nat) :
  requests (attempts aid body sts) = map (Label aid body) sts.
Proof.
  unfold attempts. destruct sts as [|s0 rest]; [reflexivity|].
  cbn. f_equal. induction rest as [|s rest IH]; [reflexivity|].
  cbn. now rewrite IH.
Qed.

(** X21.  The requests of a promotion come in a fixed order.  When the
    predecessor cannot be resolved, that is when the name does not
    parse, nothing is sent.  Otherwise the upload is the first request,
    followed by the label writes of one add_label call and then by at
    most one removal of [latest]; a removal only follows a single label
    write that was answered with 200. *)
Theorem promotion_request_order
        (fuel : nat) (srv : Server) (self : Confluence) (fn : string) :
  let tr := trace (snd (exec (send_and_label_attachment fuel srv fn) self)) in
  (forall e, parsed_of fn = Raise e -> tr = [])
  /\ (forall d, parsed_of fn = Ret d ->
      exists aid body sts,
        requests tr = Upload fn :: map (Label aid body) sts
        \/ (sts = [200]
            /\ exists i, requests tr
                         = Upload fn :: map (Label aid body) sts
                             ++ [Unlabel i "latest"])).
Proof.
  cbv zeta. rewrite send_and_label_cases. split.
  - intros e He. unfold get_attachment_predecessor. now rewrite He.
  - intros d0 Hd0.
    destruct (get_attachment_predecessor self fn) as [p|e] eqn:Hp;
      [|exfalso; eapply predecessor_needs_parse; eassumption].
    rewrite Hd0.
    destruct (upload srv) as [[[|c rest]|]|e];
      try (exists EmptyString, [], []; left; reflexivity).
    destruct (main_label_of self d0) as [main|e];
      [|exists EmptyString, [], []; left; reflexivity].
    set (body0 := [main; Str.lower (module d0); "latest"]).
    destruct (add_label_requests fuel srv (String c rest) body0
                (mkworld self (sent fn))) as [k [Hw [_ [_ Hres]]]].
    cbn zeta in Hw, Hres. cbn [self_ trace] in Hw, Hres.
    change (labels_posted (sent fn)) with 0 in Hw, Hres.
    destruct (add_label fuel srv (String c rest) body0 (mkworld self (sent fn)))
      as [[b| |] w]; cbn [fst snd] in Hw, Hres; subst w; cbn [snd trace self_].
    + destruct (b && negb (is_empty p)) eqn:Hgo.
      * apply andb_true_iff in Hgo as [-> _].
        destruct Hres as [[Hne [-> Hb]]|[_ [_ Hb]]]; [|discriminate].
        symmetry in Hb. apply Nat.eqb_eq in Hb.
        exists (String c rest), body0, [200].
        destruct (search_attachment_by_name self p) as [a|];
          cbn [snd trace]; rewrite !requests_app, requests_attempts;
          cbn [answers seq map]; rewrite Hb.
        -- right. split; [reflexivity|]. exists (id a). reflexivity.
        -- left. cbn. reflexivity.
      * exists (String c rest), body0, (answers srv 0 (S k)). left.
        cbn [snd trace]. now rewrite requests_app, requests_attempts.
    + contradiction.
    + exists (String c rest), body0, (answers srv 0 (S k)). left.
      now rewrite requests_app, requests_attempts.
Qed.

Lemma promotion_request_order_witness :
  trace (snd (exec (send_and_label_attachment 3 Sample.healthy
                      Sample.random_report) Sample.with_older)) = []
  /\ exists aid body sts,
       requests (trace (snd (exec (send_and_label_attachment 3 Sample.healthy
                                     Sample.candidate) Sample.with_older)))
       = Upload Sample.candidate :: map (Label aid body) sts
       \/ (sts = [200]
           /\ exists i,
                requests (trace (snd (exec (send_and_label_attachment 3
                                              Sample.healthy Sample.candidate)
                                           Sample.with_older)))
                = Upload Sample.candidate :: map (Label aid body) sts
                    ++ [Unlabel i "latest"]).
Proof.
  split.
  - apply (proj1 (promotion_request_order 3 Sample.healthy Sample.with_older
                    Sample.random_report) TypeError).
    vm_compute. reflexivity.
  - destruct (parsed_of Sample.candidate) as [d|e] eqn:E;
      [|vm_compute in E; discriminate].
    exact (proj2 (promotion_request_order 3 Sample.healthy Sample.with_older
                    Sample.candidate) d E).
Defined.
